(** * A shallow embedding of [sim_tools/sim.py], the discrete-time
      control-loop simulator, and of the computations of
      [falling_point/point_simulation.py].

    Python floats are idealised as exact rationals ([Q]); every concrete
    number used in the runs of the simulator below (25, 60, 0.5, ...) is
    exactly representable as a binary64 float, and no sum or product
    computed on them rounds. The constants 9.8 and 0.01 of
    [point_simulation.py] stand for the decimals they are written as.

    [controller.py] and [plant.py] are imported by [sim.py] but are not part
    of the sources at hand: the loop is embedded over their interfaces
    (type classes [PlantAPI], [ControllerAPI]), and the PID controller is
    additionally modelled from the specification in [Module PID]. *)

From Stdlib Require Import String QArith Qround Qminmax Qabs ZArith List Bool Lia Lqa.
Import ListNotations.
Open Scope Q_scope.

(** ** Python results: a value or a raised exception *)

Inductive exn : Type :=
| ZeroDivisionError
| AssertionError
| ValueError
| IndexError
| TypeError.

Inductive result (A : Type) : Type :=
| Ok (a : A)
| Err (e : exn).

Arguments Ok {A} a.
Arguments Err {A} e.

Definition bind {A B : Type} (m : result A) (k : A -> result B) : result B :=
  match m with
  | Ok a => k a
  | Err e => Err e
  end.

(** What a run of the [while] loop comes to: it is left with a value, it
    raises, or it is still running when the fuel is used up. *)
Inductive outcome (A : Type) : Type :=
| Done (a : A)
| Raised (e : exn)
| OutOfFuel.

Arguments Done {A} a.
Arguments Raised {A} e.
Arguments OutOfFuel {A}.

Notation "x <- m ;; k" := (bind m (fun x => k))
  (at level 61, m at next level, right associativity).
Notation "' p <- m ;; k" := (bind m (fun p => k))
  (at level 61, p pattern, m at next level, right associativity).

(** [assert c] *)
Definition py_assert (c : bool) : result unit :=
  if c then Ok tt else Err AssertionError.

(** ** Numbers *)

(** [a / b] on Python floats: a zero divisor raises. *)
Definition py_div (a b : Q) : result Q :=
  if Qeq_bool b 0 then Err ZeroDivisionError else Ok (a / b).

(** Python 3 [round(x)]: to the nearest integer, ties to the even one. *)
Definition py_round (x : Q) : Z :=
  let f := Qfloor x in
  match Qcompare (x - inject_Z f) (1 # 2) with
  | Lt => f
  | Gt => (f + 1)%Z
  | Eq => if Z.even f then f else (f + 1)%Z
  end.

(** [a < b] as a boolean. *)
Definition Qlt_bool (a b : Q) : bool := negb (Qle_bool b a).

(** ** [collections.deque] with a [maxlen] *)

Record deque : Type := mkDeque { items : list Q; maxlen : nat }.

(** [deque(maxlen=n)] *)
Definition deque_new (n : nat) : deque := mkDeque [] n.

(** [d.append(x)]: a full deque drops its leftmost item. *)
Definition deque_append (d : deque) (x : Q) : deque :=
  let l := items d ++ [x] in
  mkDeque (if (maxlen d <? length l)%nat then tl l else l) (maxlen d).

(** [d.extend(xs)] appends the items one by one. *)
Definition deque_extend (d : deque) (xs : list Q) : deque :=
  fold_left deque_append xs d.

(** [d[0]] *)
Definition deque_front (d : deque) : result Q :=
  match items d with
  | [] => Err IndexError
  | x :: _ => Ok x
  end.

(** ** Command-line arguments ([args])

    [pid] holds the three gains that [float(args.pid[i])] reads from the
    strings of [--pid]. *)

Record Args : Type := mkArgs {
  plant : string;
  pid : Q * Q * Q;
  setpoint : Q;
  supress_output : bool;
  interval : Q;
  delay : Q;
  sampletime : Q;
  out_min : Q;
  out_max : Q;
  sensor_noise_std_dev : Q;
  output_rate_limit : Q;
  constant_values : string;
  initial_values : string
}.

(** What [ast.literal_eval] can return, as far as [simulate_system] looks at
    it: a dictionary or something else. *)
Inductive literal : Type :=
| LitNum (q : Q)
| LitStr (s : string)
| LitList (l : list Q)
| LitDict (d : list (string * Q)).

Definition is_dict (v : literal) : bool :=
  match v with LitDict _ => true | _ => false end.

(** ** Interfaces of the imported modules *)

(** A plant object: [update(output, duration)] and [sensable_state]. *)
Class PlantAPI (P : Type) : Type := {
  update : P -> Q -> Q -> P;
  sensable_state : P -> Q
}.

(** The [plant] module ([getattr(plant, name)], [None] when [hasattr] is
    false; a class is called with the two literals) and [literal_eval]. *)
Record Library (P : Type) : Type := mkLibrary {
  plant_getattr : string -> option (literal -> literal -> result P);
  literal_eval : string -> result literal
}.

Arguments plant_getattr {P} _ _.
Arguments literal_eval {P} _ _.

(** [controller.PIDArduino]: the constructor (sampletime, kp, ki, kd,
    out_min, out_max; the [time] closure reads the loop's [timestamp], which
    [calc] receives here as its second argument) and
    [calc(input_val, setpoint, max_allowable_change)]. *)
Class ControllerAPI (C : Type) : Type := {
  PIDArduino : Q -> Q -> Q -> Q -> Q -> Q -> result C;
  calc : C -> Q -> Q -> Q -> Q -> Q * C
}.

(** numpy's global generator: [normal] is one draw with a valid scale. *)
Class RandomAPI (G : Type) : Type := {
  normal : Q -> G -> Q * G
}.

(** [np.random.normal(scale=s)] refuses a negative scale. *)
Definition np_random_normal {G} `{RandomAPI G} (s : Q) (g : G) : result (Q * G) :=
  if Qlt_bool s 0 then Err ValueError else Ok (normal s g).

(** ** The simulation *)

Section Simulator.

Context {P C G : Type} `{PlantAPI P} `{ControllerAPI C} `{RandomAPI G}.
Variable lib : Library P.

(** The [Simulation] namedtuple; its lists and objects are updated in place
    by the loop, here by functional update. The field [plant] is named
    [sim_plant] to keep it apart from [args.plant]. *)
Record Simulation : Type := mkSimulation {
  name : string;
  controller : C;
  sim_plant : P;
  delayed_states : deque;
  timestamps : list Q;
  plant_states : list Q;
  sensor_states : list Q;
  outputs : list Q
}.

(** The loop's state: the namedtuple, the local [timestamp], and the state
    of the random generator. *)
Record LoopState : Type := mkLoop {
  sim : Simulation;
  timestamp : Q;
  rng : G
}.

(** Lines 22-54: everything up to the filled delay line. *)
Definition setup (args : Args) : result Simulation :=
  q <- py_div (delay args) (sampletime args) ;;
  let delayed_samples_len := Z.max 1 (py_round q) in
  _ <- py_assert (match plant_getattr lib (plant args) with
                  | Some _ => true | None => false end) ;;
  match plant_getattr lib (plant args) with
  | None => Err AssertionError
  | Some plantClass =>
      initial <- literal_eval lib (initial_values args) ;;
      _ <- py_assert (is_dict initial) ;;
      constants <- literal_eval lib (constant_values args) ;;
      _ <- py_assert (is_dict constants) ;;
      let '(kp, ki, kd) := pid args in
      c <- PIDArduino (sampletime args) kp ki kd (out_min args) (out_max args) ;;
      p <- plantClass initial constants ;;
      let d := deque_new (Z.to_nat delayed_samples_len) in
      let d := deque_extend d (repeat (sensable_state p) (maxlen d)) in
      Ok (mkSimulation (plant args ++ " PID")%string c p d [] [] [] [])
  end.

(** Line 57. *)
Definition allowable_change (args : Args) : Q :=
  output_rate_limit args * sampletime args.

(** Lines 64-68: the noise term. *)
Definition sensor_noise (args : Args) (g : G) : result (Q * G) :=
  if Qle_bool (sensor_noise_std_dev args) 0 then Ok (0, g)
  else np_random_normal (sensor_noise_std_dev args) g.

(** Lines 64-69: the value [sensor_state] that the controller is given. *)
Definition read_sensor (args : Args) (s : Simulation) (g : G) : result (Q * G) :=
  '(noise, g') <- sensor_noise args g ;;
  front <- deque_front (delayed_states s) ;;
  Ok (front + noise, g').

(** Lines 104-114: [simulation_update]. *)
Definition simulation_update (s : Simulation) (ts output : Q) (args : Args)
  : result Simulation :=
  let p := update (sim_plant s) output (sampletime args) in
  let d := deque_append (delayed_states s) (sensable_state p) in
  front <- deque_front d ;;
  Ok (mkSimulation (name s) (controller s) p d
          (timestamps s ++ [ts])
          (plant_states s ++ [sensable_state p])
          (sensor_states s ++ [front])
          (outputs s ++ [output])).

(** Lines 62-82: one pass through the body of the [while] loop. *)
Definition tick (args : Args) (st : LoopState) : result LoopState :=
  let ts := timestamp st + sampletime args in
  '(sensor_state, g) <- read_sensor args (sim st) (rng st) ;;
  let '(output, c) :=
    if supress_output args then (0, controller (sim st))
    else calc (controller (sim st)) ts sensor_state (setpoint args)
           (allowable_change args) in
  let s := sim st in
  let s := mkSimulation (name s) c (sim_plant s) (delayed_states s)
             (timestamps s) (plant_states s) (sensor_states s) (outputs s) in
  s' <- simulation_update s ts output args ;;
  Ok (mkLoop s' ts g).

(** Line 61: [while timestamp < args.interval * 60]. *)
Fixpoint run_loop (fuel : nat) (args : Args) (st : LoopState) : outcome LoopState :=
  match fuel with
  | O => OutOfFuel
  | S fuel' =>
      if Qlt_bool (timestamp st) (interval args * 60) then
        match tick args st with
        | Ok st' => run_loop fuel' args st'
        | Err e => Raised e
        end
      else Done st
  end.

(** [simulate_system(args)], up to the plotting: the state the loop ends
    in, which is what [plot_simulation] is handed. *)
Definition simulate_system (fuel : nat) (args : Args) (g : G) : outcome LoopState :=
  match setup args with
  | Ok s => run_loop fuel args (mkLoop s 0 g)
  | Err e => Raised e
  end.

End Simulator.

Arguments Simulation : clear implicits.
Arguments LoopState : clear implicits.

(** ** The PID controller *)

Module PID.

Record state : Type := mkState {
  sample_time : Q;
  kp : Q;
  ki : Q;
  kd : Q;
  lo : Q;
  hi : Q;
  integral : Q;
  last_input : Q;
  last_time : Q;
  last_output : Q
}.

(** Modelled from the spec: the constructor of [controller.PIDArduino],
    which is not among the sources. "Constructing with out_min > out_max is
    a configuration error and must fail fast" (section 4.3); a non-positive
    sample time is a configuration error "detected before the loop starts"
    (section 7), and [sim.py] has no check of its own for it; the history
    starts at zero, the previous output included ("the previous output or
    0 at start", section 8). *)
Definition new (st p i d out_lo out_hi : Q) : result state :=
  if Qle_bool st 0 then Err ValueError
  else if Qlt_bool out_hi out_lo then Err ValueError
  else Ok (mkState st p i d out_lo out_hi 0 0 0 0).

(** Clamp [x] to [[a, b]]. *)
Definition clamp (a b x : Q) : Q := Qmax a (Qmin b x).

(** Modelled from the spec: [PIDArduino.calc], which is not among the
    sources, following section 4.3 step by step: sample-time gating (7),
    error (1), integral and derivative on the sensed input (2), raw output
    (3), anti-windup by rolling the integral back (4), range clamp of the
    pre-rate-limit output (5), and the change from the previous output
    clamped to [+- max_allowable_change] (6). The sign with which the
    derivative enters is not fixed by the spec's words. *)
Definition calc (c : state) (now input_val set_point max_allowable_change : Q)
  : Q * state :=
  if Qlt_bool (now - last_time c) (sample_time c) then (last_output c, c)
  else
    let error := set_point - input_val in
    let integral' := integral c + error * sample_time c in
    let derivative := (input_val - last_input c) / sample_time c in
    let raw := kp c * error + ki c * integral' + kd c * derivative in
    let saturated := Qlt_bool raw (lo c) || Qlt_bool (hi c) raw in
    let clamped := clamp (lo c) (hi c) raw in
    let change := clamp (- max_allowable_change) max_allowable_change
                    (clamped - last_output c) in
    let output := last_output c + change in
    (output,
     mkState (sample_time c) (kp c) (ki c) (kd c) (lo c) (hi c)
       (if saturated then integral c else integral')
       input_val now output).

(** Modelled from the spec: [calc] together with the one step at which
    Python can refuse finite numbers, the division by the sample time in
    the derivative; on every other path the call returns what [calc]
    returns. *)
Definition calc_checked
  (c : state) (now input_val set_point max_allowable_change : Q)
  : result (Q * state) :=
  if Qlt_bool (now - last_time c) (sample_time c)
  then Ok (calc c now input_val set_point max_allowable_change)
  else
    _ <- py_div (input_val - last_input c) (sample_time c) ;;
    Ok (calc c now input_val set_point max_allowable_change).

End PID.

#[export] Instance PID_controller : ControllerAPI PID.state :=
  {| PIDArduino := PID.new; calc := PID.calc |}.

(** ** Small instances of the interfaces, to run the loop on

    They stand in for the classes of [plant.py] and for numpy's generator;
    the statements below that use them hold for any plant whose observable
    state moves during a tick. *)

(** A plant that integrates its command: [x' = x + u * dt]. *)
Record Integrator : Type := mkIntegrator { level : Q }.

#[export] Instance Integrator_plant : PlantAPI Integrator :=
  {| update := fun p u dt => mkIntegrator (level p + u * dt);
     sensable_state := level |}.

Fixpoint dict_get (k : string) (d : list (string * Q)) (default : Q) : Q :=
  match d with
  | [] => default
  | (k', v) :: d' => if String.eqb k k' then v else dict_get k d' default
  end.

Definition Integrator_new (initial constants : literal) : result Integrator :=
  match initial with
  | LitDict d => Ok (mkIntegrator (dict_get "x0" d 0))
  | _ => Err TypeError
  end.

(** A [plant] module with the one class above, and the values of
    [literal_eval] on the few strings used below. *)
Definition test_library : Library Integrator :=
  {| plant_getattr := fun n =>
       if String.eqb n "Integrator" then Some Integrator_new else None;
     literal_eval := fun s =>
       if String.eqb s "{}" then Ok (LitDict [])
       else if String.eqb s "{'x0': 2}" then Ok (LitDict [("x0"%string, 2)])
       else if String.eqb s "[]" then Ok (LitList [])
       else if String.eqb s "7" then Ok (LitNum 7)
       else Err ValueError |}.

(** A generator that counts its draws; each draw returns its scale. *)
#[export] Instance counting_rng : RandomAPI nat :=
  {| normal := fun s g => (s, S g) |}.

(** A controller that counts the calls of [calc] and remembers the last
    input it was given; it always commands 1. *)
Record Probe : Type := mkProbe { calls : nat; seen : Q }.

#[export] Instance Probe_controller : ControllerAPI Probe :=
  {| PIDArduino := fun _ _ _ _ _ _ => Ok (mkProbe 0 0);
     calc := fun c _ input_val _ _ => (1, mkProbe (S (calls c)) input_val) |}.

(** ** Vocabulary of the statements *)

Section Vocabulary.

Context {P C G : Type}.

(** The delay line holds as many items as it can, and at least one. *)
Definition line_full (s : Simulation P C) : Prop :=
  length (items (delayed_states s)) = maxlen (delayed_states s) /\
  (1 <= maxlen (delayed_states s))%nat.

(** The four recorded series have one length. *)
Definition series_aligned (s : Simulation P C) : Prop :=
  length (sensor_states s) = length (timestamps s) /\
  length (outputs s) = length (timestamps s) /\
  length (plant_states s) = length (timestamps s).

(** The same loop state with another generator state. *)
Definition with_rng (g : G) (st : LoopState P C G) : LoopState P C G :=
  mkLoop (sim st) (timestamp st) g.

End Vocabulary.

(** The loop's clock after [n] passes: [timestamp = 0], then [n] times
    [timestamp += args.sampletime]. *)
Definition clock (args : Args) (n : nat) : Q :=
  Nat.iter n (fun t => t + sampletime args) 0.

Section Reach.

Context {P C G : Type} `{PlantAPI P} `{ControllerAPI C} `{RandomAPI G}.

(** The loop states that passes through the loop body lead to from the
    state in which the loop is entered. *)
Inductive reachable (args : Args) (s : Simulation P C)
  : LoopState P C G -> Prop :=
| reach_start (g : G) : reachable args s (mkLoop s 0 g)
| reach_tick (a b : LoopState P C G) :
    reachable args s a -> tick args a = Ok b -> reachable args s b.

End Reach.

(** The last element of a list, if any. *)
Definition final (l : list Q) : option Q := nth_error l (pred (length l)).

(** Neighbours in the list differ by [m] at most. *)
Definition slew_bounded (m : Q) (l : list Q) : Prop :=
  forall t a b,
    nth_error l t = Some a -> nth_error l (S t) = Some b -> Qabs (b - a) <= m.

(** The plants that a list of commands leads through, each command held
    for one [duration]. *)
Fixpoint trajectory {P} `{PlantAPI P} (duration : Q) (p : P) (commands : list Q)
  : list P :=
  match commands with
  | [] => []
  | u :: commands' =>
      let p' := update p u duration in
      p' :: trajectory duration p' commands'
  end.

(** [args] with another [--sensor-noise-std-dev]. *)
Definition set_noise (sigma : Q) (args : Args) : Args :=
  mkArgs (plant args) (pid args) (setpoint args) (supress_output args)
    (interval args) (delay args) (sampletime args) (out_min args)
    (out_max args) sigma (output_rate_limit args)
    (constant_values args) (initial_values args).

(** ** Concrete runs *)

(** [--plant Integrator --pid 1 0 0 --setpoint 10 --interval 1
     --delay 0 --sampletime 25 --out-min 0 --out-max 100]. *)
Definition args0 : Args :=
  {| plant := "Integrator"; pid := (1, 0, 0); setpoint := 10;
     supress_output := false; interval := 1; delay := 0; sampletime := 25;
     out_min := 0; out_max := 100; sensor_noise_std_dev := 0;
     output_rate_limit := 1000000;
     constant_values := "{}"; initial_values := "{'x0': 2}" |}.

(** Output bounds that leave 0 out, a delay of two samples, and a rate
    limit of 1/8 per second, that is 1 per tick of 8 seconds. *)
Definition args_narrow : Args :=
  {| plant := "Integrator"; pid := (1, 0, 0); setpoint := 45;
     supress_output := false; interval := 1 # 4; delay := 16; sampletime := 8;
     out_min := 10; out_max := 100; sensor_noise_std_dev := 0;
     output_rate_limit := 1 # 8;
     constant_values := "{}"; initial_values := "{'x0': 2}" |}.

(** [args0] with [--supress-output]. *)
Definition args_open : Args :=
  {| plant := "Integrator"; pid := (1, 0, 0); setpoint := 10;
     supress_output := true; interval := 1; delay := 0; sampletime := 25;
     out_min := 0; out_max := 100; sensor_noise_std_dev := 0;
     output_rate_limit := 1000000;
     constant_values := "{}"; initial_values := "{'x0': 2}" |}.

(** [args0] with [--sensor-noise-std-dev -0.5]. *)
Definition args_negative : Args :=
  {| plant := "Integrator"; pid := (1, 0, 0); setpoint := 10;
     supress_output := false; interval := 1; delay := 0; sampletime := 25;
     out_min := 0; out_max := 100; sensor_noise_std_dev := - (1 # 2);
     output_rate_limit := 1000000;
     constant_values := "{}"; initial_values := "{'x0': 2}" |}.

(** [args0] with a plant that the module does not have. *)
Definition args_unknown : Args :=
  {| plant := "Pendulum"; pid := (1, 0, 0); setpoint := 10;
     supress_output := false; interval := 1; delay := 0; sampletime := 25;
     out_min := 0; out_max := 100; sensor_noise_std_dev := 0;
     output_rate_limit := 1000000;
     constant_values := "{}"; initial_values := "{'x0': 2}" |}.

(** [args_narrow] with the default [--output-rate-limit]. *)
Definition args_wide : Args :=
  {| plant := "Integrator"; pid := (1, 0, 0); setpoint := 45;
     supress_output := false; interval := 1 # 4; delay := 16; sampletime := 8;
     out_min := 10; out_max := 100; sensor_noise_std_dev := 0;
     output_rate_limit := 1000000;
     constant_values := "{}"; initial_values := "{'x0': 2}" |}.

(** [args0] with [--interval 0]. *)
Definition args_no_horizon : Args :=
  {| plant := "Integrator"; pid := (1, 0, 0); setpoint := 10;
     supress_output := false; interval := 0; delay := 0; sampletime := 25;
     out_min := 0; out_max := 100; sensor_noise_std_dev := 0;
     output_rate_limit := 1000000;
     constant_values := "{}"; initial_values := "{'x0': 2}" |}.

(** [args0] with [--sensor-noise-std-dev 0.5]. *)
Definition args_noisy : Args :=
  {| plant := "Integrator"; pid := (1, 0, 0); setpoint := 10;
     supress_output := false; interval := 1; delay := 0; sampletime := 25;
     out_min := 0; out_max := 100; sensor_noise_std_dev := 1 # 2;
     output_rate_limit := 1000000;
     constant_values := "{}"; initial_values := "{'x0': 2}" |}.

(** [args0] with [--sampletime 0] and a plant that the module does not
    have. *)
Definition args_zero_sampletime : Args :=
  {| plant := "Pendulum"; pid := (1, 0, 0); setpoint := 10;
     supress_output := false; interval := 1; delay := 0; sampletime := 0;
     out_min := 0; out_max := 100; sensor_noise_std_dev := 0;
     output_rate_limit := 1000000;
     constant_values := "{}"; initial_values := "{'x0': 2}" |}.

(** The simulation that the set-up builds from [args0]. *)
Definition sim0 : Simulation Integrator PID.state :=
  mkSimulation "Integrator PID" (PID.mkState 25 1 0 0 0 100 0 0 0 0)
    (mkIntegrator 2) (mkDeque [2] 1) [] [] [] [].

(** The same with the probe for a controller. *)
Definition sim_probe : Simulation Integrator Probe :=
  mkSimulation "Integrator PID" (mkProbe 0 0)
    (mkIntegrator 2) (mkDeque [2] 1) [] [] [] [].

(** The simulation that the set-up builds from [args_narrow]. *)
Definition sim_narrow : Simulation Integrator PID.state :=
  mkSimulation "Integrator PID" (PID.mkState 8 1 0 0 10 100 0 0 0 0)
    (mkIntegrator 2) (mkDeque [2; 2] 2) [] [] [] [].

(** The state after the first tick of the run of [args0]. *)
Definition loop1 : LoopState Integrator PID.state nat :=
  Eval vm_compute in
    match tick args0 (mkLoop sim0 0 0%nat) with
    | Ok st => st
    | Err _ => mkLoop sim0 0 0%nat
    end.

(** The state after the first tick of the run of [args0] with the probe
    for a controller. *)
Definition loop_probe : LoopState Integrator Probe nat :=
  Eval vm_compute in
    match tick args0 (mkLoop sim_probe 0 0%nat) with
    | Ok st => st
    | Err _ => mkLoop sim_probe 0 0%nat
    end.

(** The state in which the run of [args0] leaves the loop. *)
Definition run0 : LoopState Integrator PID.state nat :=
  Eval vm_compute in
    match simulate_system (C := PID.state) test_library 10 args0 0%nat with
    | Done st => st
    | _ => mkLoop sim0 0 0%nat
    end.

(** The simulation that the set-up builds from [args_wide]. *)
Definition sim_wide : Simulation Integrator PID.state :=
  mkSimulation "Integrator PID" (PID.mkState 8 1 0 0 10 100 0 0 0 0)
    (mkIntegrator 2) (mkDeque [2; 2] 2) [] [] [] [].

(** The state in which the run of [args_wide] leaves the loop. *)
Definition run_wide : LoopState Integrator PID.state nat :=
  Eval vm_compute in
    match simulate_system (C := PID.state) test_library 10 args_wide 0%nat with
    | Done st => st
    | _ => mkLoop sim_wide 0 0%nat
    end.

(** The state in which the run of [args_noisy] leaves the loop. *)
Definition run_noisy : LoopState Integrator PID.state nat :=
  Eval vm_compute in
    match simulate_system (C := PID.state) test_library 10 args_noisy 0%nat with
    | Done st => st
    | _ => mkLoop sim0 0 0%nat
    end.

(** The state in which the run of [args_narrow] leaves the loop. *)
Definition run_narrow : LoopState Integrator PID.state nat :=
  Eval vm_compute in
    match simulate_system (C := PID.state) test_library 10 args_narrow 0%nat with
    | Done st => st
    | _ => mkLoop sim_narrow 0 0%nat
    end.

(** The state in which the run of [args_open], with the probe for a
    controller, leaves the loop. *)
Definition run_open : LoopState Integrator Probe nat :=
  Eval vm_compute in
    match simulate_system (C := Probe) test_library 10 args_open 0%nat with
    | Done st => st
    | _ => mkLoop sim_probe 0 0%nat
    end.

(** * [falling_point/point_simulation.py] *)

(** ** The numpy and builtin functions that it calls *)

(** [np.diff(a)]: the differences of neighbours. *)
Fixpoint np_diff (a : list Q) : list Q :=
  match a with
  | x :: (y :: _) as r => (y - x) :: np_diff r
  | _ => []
  end.

Definition np_sum (a : list Q) : Q := fold_right Qplus 0 a.

(** [np.average(a)]: the mean; of an empty array it is [nan] ([None]). *)
Definition np_average (a : list Q) : option Q :=
  match a with
  | [] => None
  | _ => Some (np_sum a / inject_Z (Z.of_nat (length a)))
  end.

(** [np.min(a)] and [np.max(a)] refuse an empty array. *)
Definition np_min (a : list Q) : result Q :=
  match a with
  | [] => Err ValueError
  | x :: r => Ok (fold_left Qmin r x)
  end.

Definition np_max (a : list Q) : result Q :=
  match a with
  | [] => Err ValueError
  | x :: r => Ok (fold_left Qmax r x)
  end.

(** [np.arange(a, b)] on integers. *)
Definition np_arange (a b : nat) : list nat := seq a (b - a).

(** [int(x)] truncates towards zero. *)
Definition py_int (x : Q) : Z :=
  if Qlt_bool x 0 then Qceiling x else Qfloor x.

Module FallingPoint.

Definition MASS : Q := 2.
Definition G : Q := 98 # 10.
Definition SIM_LENGTH : Q := 10.
Definition SAMPLES_PER_SECOND : Q := 30.

(** [falling_point_ode(Z, t)]:
    [np.hstack((Z[3:], np.array([0, 0, -G])))]. *)
Definition falling_point_ode (Z : list Q) (t : Q) : list Q :=
  skipn 3 Z ++ [0; 0; - G].

(** What [animate_point] works out and hands to matplotlib: the playback
    step [dt], the limits of the three axes, the frame numbers given to
    [FuncAnimation] and its [interval] in milliseconds. *)
Record Animation : Type := mkAnimation {
  dt : Q;
  xlim : Q * Q;
  ylim : Q * Q;
  zlim : Q * Q;
  frames : list nat;
  interval_ms : Z
}.

(** Lines 54-56: [[min(np.min(col), -1), max(np.max(col), 1)]]. *)
Definition axis_limits (col : list Q) : result (Q * Q) :=
  lo <- np_min col ;;
  hi <- np_max col ;;
  Ok (Qmin lo (- (1)), Qmax hi 1).

(** [animate_point(t_span, xyz, scale)], rows of [xyz] as triples. The
    [nan] that [dt] is for fewer than two time points is refused by
    [int(dt * 1e3)] on line 81. *)
Definition animate_point (t_span : list Q) (xyz : list (Q * Q * Q)) (scale : Q)
  : result Animation :=
  _ <- py_assert (Qlt_bool (1 # 100) scale && Qlt_bool scale 100) ;;
  let dt := option_map (fun a => a / scale) (np_average (np_diff t_span)) in
  xl <- axis_limits (map (fun r => fst (fst r)) xyz) ;;
  yl <- axis_limits (map (fun r => snd (fst r)) xyz) ;;
  zl <- axis_limits (map snd xyz) ;;
  match dt with
  | None => Err ValueError
  | Some d =>
      Ok (mkAnimation d xl yl zl (np_arange 1 (length xyz)) (py_int (d * 1000)))
  end.

(** Lines 71-75, [animate(i)]: the row drawn and the time shown. *)
Definition animate (xyz : list (Q * Q * Q)) (dt : Q) (i : nat)
  : result (Q * Q * Q * Q) :=
  match nth_error xyz i with
  | Some r => Ok (r, inject_Z (Z.of_nat i) * dt)
  | None => Err IndexError
  end.

(** The mechanical energy of a state [(x, y, z, vx, vy, vz)] of the point
    of mass [MASS], and its rate of change when the state moves with the
    derivative [d]. *)
Definition energy (s : list Q) : Q :=
  match s with
  | [_; _; z; vx; vy; vz] =>
      MASS * (vx * vx + vy * vy + vz * vz) / 2 + MASS * G * z
  | _ => 0
  end.

Definition energy_rate (s d : list Q) : Q :=
  match s, d with
  | [_; _; _; vx; vy; vz], [_; _; dz; ax; ay; az] =>
      MASS * (vx * ax + vy * ay + vz * az) + MASS * G * dz
  | _, _ => 0
  end.

(** The state [s] moved along [d] for a step [h]. *)
Definition step_along (s d : list Q) (h : Q) : list Q :=
  map (fun sd => fst sd + h * snd sd) (combine s d).

(** Four time points half a second apart and four rows to show. *)
Definition t_span4 : list Q := [0; 1 # 2; 1; 3 # 2].

Definition xyz4 : list (Q * Q * Q) :=
  [(1, 3 # 2, 5 # 2); (1, 1, 2); (1, 1 # 2, 1 # 2); (1, 0, - (3))].

Definition animation4 : Animation :=
  Eval vm_compute in
    match animate_point t_span4 xyz4 1 with
    | Ok a => a
    | Err _ => mkAnimation 0 (0, 0) (0, 0) (0, 0) [] 0
    end.

End FallingPoint.

(** * Properties *)

(** ** Numbers *)

Lemma Qlt_bool_iff (a b : Q) : Qlt_bool a b = true <-> a < b.
Proof.
  unfold Qlt_bool. rewrite negb_true_iff.
  destruct (Qle_bool b a) eqn:E.
  - apply Qle_bool_iff in E. split; [discriminate | intro; lra].
  - split; [intros _ | reflexivity].
    destruct (Qlt_le_dec a b) as [L | L]; [exact L |].
    apply Qle_bool_iff in L. congruence.
Qed.

Lemma Qlt_bool_false_iff (a b : Q) : Qlt_bool a b = false <-> b <= a.
Proof.
  unfold Qlt_bool. rewrite negb_false_iff. apply Qle_bool_iff.
Qed.

Lemma py_round_comp (x y : Q) : x == y -> py_round x = py_round y.
Proof.
  intro E. unfold py_round.
  rewrite (Qfloor_comp x y E).
  assert (E' : x - inject_Z (Qfloor y) == y - inject_Z (Qfloor y))
    by (rewrite E; reflexivity).
  rewrite (Qcompare_comp _ _ E' (1 # 2) (1 # 2) (Qeq_refl _)).
  reflexivity.
Qed.

(** [round] is within one half of its argument. *)
Lemma py_round_near (x : Q) : Qabs (inject_Z (py_round x) - x) <= 1 # 2.
Proof.
  unfold py_round.
  pose proof (Qfloor_le x) as Hlo. pose proof (Qlt_floor x) as Hhi.
  rewrite inject_Z_plus in Hhi. change (inject_Z 1) with 1 in Hhi.
  assert (Hup : inject_Z (Qfloor x + 1) == inject_Z (Qfloor x) + 1)
    by (rewrite inject_Z_plus; reflexivity).
  apply Qabs_Qle_condition.
  destruct (Qcompare (x - inject_Z (Qfloor x)) (1 # 2)) eqn:E.
  - apply Qeq_alt in E.
    destruct (Z.even (Qfloor x)); [| rewrite Hup]; split; lra.
  - apply Qlt_alt in E. split; lra.
  - apply Qgt_alt in E. rewrite Hup. split; lra.
Qed.

(** ** The delay line *)

Lemma deque_append_maxlen (d : deque) (x : Q) :
  maxlen (deque_append d x) = maxlen d.
Proof. reflexivity. Qed.

Lemma deque_append_room (d : deque) (x : Q) :
  (length (items d) < maxlen d)%nat ->
  items (deque_append d x) = items d ++ [x].
Proof.
  intro L. unfold deque_append; simpl.
  rewrite length_app; simpl.
  destruct (Nat.ltb_spec (maxlen d) (length (items d) + 1)); [lia | reflexivity].
Qed.

Lemma deque_append_full (d : deque) (x : Q) :
  length (items d) = maxlen d ->
  items (deque_append d x) = tl (items d ++ [x]).
Proof.
  intro L. unfold deque_append; simpl.
  rewrite length_app; simpl.
  destruct (Nat.ltb_spec (maxlen d) (length (items d) + 1)); [reflexivity | lia].
Qed.

Lemma deque_append_full_length (d : deque) (x : Q) :
  length (items d) = maxlen d ->
  length (items (deque_append d x)) = maxlen d.
Proof.
  intro L. rewrite deque_append_full by exact L.
  destruct (items d) as [| y l] eqn:E; simpl in *.
  - exact L.
  - rewrite length_app; simpl. lia.
Qed.

Lemma deque_extend_maxlen (xs : list Q) (d : deque) :
  maxlen (deque_extend d xs) = maxlen d.
Proof.
  revert d. induction xs as [| x xs IH]; intro d; simpl; [reflexivity |].
  unfold deque_extend in *; simpl. rewrite IH. reflexivity.
Qed.

Lemma repeat_snoc {A} (x : A) (k : nat) : repeat x k ++ [x] = repeat x (S k).
Proof. induction k as [| k IH]; simpl; [reflexivity | now rewrite IH]. Qed.

Lemma deque_extend_repeat (x : Q) (j : nat) : forall (k : nat) (d : deque),
  items d = repeat x k -> (k + j <= maxlen d)%nat ->
  items (deque_extend d (repeat x j)) = repeat x (k + j).
Proof.
  induction j as [| j IH]; intros k d E L; simpl.
  - rewrite Nat.add_0_r. exact E.
  - unfold deque_extend in *; simpl.
    replace (k + S j)%nat with (S k + j)%nat by lia.
    apply IH.
    + rewrite deque_append_room by (rewrite E, repeat_length; lia).
      rewrite E. apply repeat_snoc.
    + rewrite deque_append_maxlen. lia.
Qed.

(** Filling a new deque with as many copies as it holds. *)
Lemma deque_prefill (x : Q) (n : nat) :
  items (deque_extend (deque_new n) (repeat x (maxlen (deque_new n)))) = repeat x n.
Proof.
  simpl. now rewrite (deque_extend_repeat x n 0 (deque_new n)).
Qed.

(** ** The simulator, over any plant, controller and generator *)

Section SimulatorFacts.

Context {P C G : Type} `{PlantAPI P} `{ControllerAPI C} `{RandomAPI G}.
Variable lib : Library P.

(** What a successful [setup] went through. *)
Lemma setup_Ok (args : Args) (s : Simulation P C) :
  setup lib args = Ok s ->
  exists cls ini con c p,
    ~ sampletime args == 0 /\
    plant_getattr lib (plant args) = Some cls /\
    literal_eval lib (initial_values args) = Ok ini /\ is_dict ini = true /\
    literal_eval lib (constant_values args) = Ok con /\ is_dict con = true /\
    PIDArduino (sampletime args) (fst (fst (pid args))) (snd (fst (pid args)))
      (snd (pid args)) (out_min args) (out_max args) = Ok c /\
    cls ini con = Ok p /\
    let n := Z.to_nat (Z.max 1 (py_round (delay args / sampletime args))) in
    s = mkSimulation (plant args ++ " PID")%string c p
          (deque_extend (deque_new n) (repeat (sensable_state p) n)) [] [] [] [].
Proof.
  unfold setup, py_div. intro E.
  destruct (Qeq_bool (sampletime args) 0) eqn:E0; [discriminate |].
  apply Qeq_bool_neq in E0. simpl in E.
  destruct (plant_getattr lib (plant args)) as [cls |] eqn:Ep; [| discriminate].
  simpl in E.
  destruct (literal_eval lib (initial_values args)) as [ini |] eqn:Ei;
    try discriminate.
  simpl in E. destruct (is_dict ini) eqn:Di; [| discriminate]. simpl in E.
  destruct (literal_eval lib (constant_values args)) as [con |] eqn:Ec;
    try discriminate.
  simpl in E. destruct (is_dict con) eqn:Dc; [| discriminate]. simpl in E.
  destruct (pid args) as [[p_ i_] d_]. simpl.
  destruct (PIDArduino (sampletime args) p_ i_ d_ (out_min args) (out_max args))
    as [c |] eqn:Ek; try discriminate.
  simpl in E. destruct (cls ini con) as [p |] eqn:El; try discriminate.
  simpl in E. injection E as <-.
  exists cls, ini, con, c, p. repeat split; auto.
Qed.

Lemma setup_line_full (args : Args) (s : Simulation P C) :
  setup lib args = Ok s -> line_full s.
Proof.
  intro E. apply setup_Ok in E.
  destruct E as (cls & ini & con & c & p & _ & _ & _ & _ & _ & _ & _ & _ & ->).
  unfold line_full; simpl.
  rewrite deque_extend_maxlen; simpl.
  pose proof (deque_prefill (sensable_state p)
                (Z.to_nat (Z.max 1 (py_round (delay args / sampletime args))))) as F.
  simpl in F. rewrite F, repeat_length. split; [reflexivity | lia].
Qed.

Lemma setup_series_empty (args : Args) (s : Simulation P C) :
  setup lib args = Ok s ->
  timestamps s = [] /\ sensor_states s = [] /\ outputs s = [] /\ plant_states s = [].
Proof.
  intro E. apply setup_Ok in E.
  destruct E as (cls & ini & con & c & p & _ & _ & _ & _ & _ & _ & _ & _ & ->).
  simpl. auto.
Qed.

(** The noise term is always produced: the generator is only asked with a
    positive scale. *)
Lemma sensor_noise_Ok (args : Args) (g : G) :
  exists noise g', sensor_noise args g = Ok (noise, g').
Proof.
  unfold sensor_noise, np_random_normal.
  destruct (Qle_bool (sensor_noise_std_dev args) 0) eqn:E; [eauto |].
  destruct (Qlt_bool (sensor_noise_std_dev args) 0) eqn:E'.
  - apply Qlt_bool_iff in E'.
    assert (L : sensor_noise_std_dev args <= 0) by lra.
    apply Qle_bool_iff in L. congruence.
  - destruct (normal (sensor_noise_std_dev args) g) as [n g']. eauto.
Qed.

(** The state after a tick, spelled out. *)
Lemma tick_inv (args : Args) (st st' : LoopState P C G) :
  tick args st = Ok st' ->
  exists noise front out c front',
    sensor_noise args (rng st) = Ok (noise, rng st') /\
    deque_front (delayed_states (sim st)) = Ok front /\
    read_sensor args (sim st) (rng st) = Ok (front + noise, rng st') /\
    (if supress_output args then (0, controller (sim st))
     else calc (controller (sim st)) (timestamp st + sampletime args)
            (front + noise) (setpoint args) (allowable_change args)) = (out, c) /\
    let p := update (sim_plant (sim st)) out (sampletime args) in
    let d := deque_append (delayed_states (sim st)) (sensable_state p) in
    deque_front d = Ok front' /\
    st' = mkLoop
            (mkSimulation (name (sim st)) c p d
               (timestamps (sim st) ++ [timestamp st + sampletime args])
               (plant_states (sim st) ++ [sensable_state p])
               (sensor_states (sim st) ++ [front'])
               (outputs (sim st) ++ [out]))
            (timestamp st + sampletime args) (rng st').
Proof.
  unfold tick, read_sensor. intro E.
  destruct (sensor_noise args (rng st)) as [[noise g'] |] eqn:En; try discriminate.
  simpl in E.
  destruct (deque_front (delayed_states (sim st))) as [front |] eqn:Ef;
    try discriminate.
  simpl in E.
  destruct (if supress_output args then (0, controller (sim st))
            else calc (controller (sim st)) (timestamp st + sampletime args)
                   (front + noise) (setpoint args) (allowable_change args))
    as [out c] eqn:Ec.
  unfold simulation_update in E. simpl in E.
  destruct (deque_front
              (deque_append (delayed_states (sim st))
                 (sensable_state (update (sim_plant (sim st)) out (sampletime args)))))
    as [front' |] eqn:Ef'; try discriminate.
  simpl in E. injection E as <-. simpl.
  exists noise, front, out, c, front'. repeat split; auto.
Qed.

Lemma deque_front_full (d : deque) :
  length (items d) = maxlen d -> (1 <= maxlen d)%nat ->
  exists x, deque_front d = Ok x.
Proof.
  unfold deque_front. intros L M.
  destruct (items d) as [| x l]; simpl in *; [lia | eauto].
Qed.

(** A tick never raises once the delay line is filled. *)
Lemma tick_total (args : Args) (st : LoopState P C G) :
  line_full (sim st) -> exists st', tick args st = Ok st'.
Proof.
  intros [L M]. unfold tick, read_sensor.
  destruct (sensor_noise_Ok args (rng st)) as (noise & g' & ->). simpl.
  destruct (deque_front_full _ L M) as (front & ->). simpl.
  destruct (if supress_output args then (0, controller (sim st))
            else calc (controller (sim st)) (timestamp st + sampletime args)
                   (front + noise) (setpoint args) (allowable_change args))
    as [out c].
  unfold simulation_update; simpl.
  destruct (deque_front_full
              (deque_append (delayed_states (sim st))
                 (sensable_state (update (sim_plant (sim st)) out (sampletime args)))))
    as (front' & ->).
  - rewrite deque_append_maxlen. now apply deque_append_full_length.
  - now rewrite deque_append_maxlen.
  - simpl. eauto.
Qed.

Lemma tick_line_full (args : Args) (st st' : LoopState P C G) :
  line_full (sim st) -> tick args st = Ok st' -> line_full (sim st').
Proof.
  intros [L M] E. apply tick_inv in E.
  destruct E as (noise & front & out & c & front' & _ & _ & _ & _ & _ & ->).
  unfold line_full. cbn [sim delayed_states].
  rewrite deque_append_maxlen, deque_append_full_length by exact L. auto.
Qed.

Lemma tick_series_aligned (args : Args) (st st' : LoopState P C G) :
  series_aligned (sim st) -> tick args st = Ok st' -> series_aligned (sim st').
Proof.
  intros (A1 & A2 & A3) E. apply tick_inv in E.
  destruct E as (noise & front & out & c & front' & _ & _ & _ & _ & _ & ->).
  unfold series_aligned; simpl. rewrite !length_app; simpl. lia.
Qed.

(** Whatever every tick preserves holds when the loop is left. *)
Lemma run_loop_invariant (Inv : LoopState P C G -> Prop) (args : Args) :
  (forall st st', Inv st -> tick args st = Ok st' -> Inv st') ->
  forall fuel st st', Inv st -> run_loop fuel args st = Done st' -> Inv st'.
Proof.
  intros Step. induction fuel as [| fuel IH]; intros st st' I E; simpl in E.
  - discriminate.
  - destruct (Qlt_bool (timestamp st) (interval args * 60)).
    + destruct (tick args st) as [st1 |] eqn:Et; try discriminate.
      simpl in E. eapply IH; [| exact E]. eapply Step; eauto.
    + now injection E as <-.
Qed.

End SimulatorFacts.

(** ** The delay line of a run: capacity and pre-fill *)

Section DelayLine.

Context {P C G : Type} `{PlantAPI P} `{ControllerAPI C} `{RandomAPI G}.
Variable lib : Library P.

Lemma setup_maxlen (args : Args) (s : Simulation P C) :
  setup lib args = Ok s ->
  maxlen (delayed_states s) =
  Z.to_nat (Z.max 1 (py_round (delay args / sampletime args))).
Proof.
  intro E. apply setup_Ok in E.
  destruct E as (cls & ini & con & c & p & _ & _ & _ & _ & _ & _ & _ & _ & ->).
  cbn [delayed_states]. now rewrite deque_extend_maxlen.
Qed.

Lemma setup_items (args : Args) (s : Simulation P C) :
  setup lib args = Ok s ->
  items (delayed_states s) =
  repeat (sensable_state (sim_plant s)) (maxlen (delayed_states s)).
Proof.
  intro E. rewrite (setup_maxlen _ _ E). apply setup_Ok in E.
  destruct E as (cls & ini & con & c & p & _ & _ & _ & _ & _ & _ & _ & _ & ->).
  cbn [delayed_states sim_plant].
  apply (deque_prefill (sensable_state p)).
Qed.

(** With room for one item only, the line holds the latest observation. *)
Lemma single_slot_tick (args : Args) (st st' : LoopState P C G) :
  maxlen (delayed_states (sim st)) = 1%nat ->
  items (delayed_states (sim st)) = [sensable_state (sim_plant (sim st))] ->
  tick args st = Ok st' ->
  maxlen (delayed_states (sim st')) = 1%nat /\
  items (delayed_states (sim st')) = [sensable_state (sim_plant (sim st'))].
Proof.
  intros M I E. apply tick_inv in E.
  destruct E as (noise & front & out & c & front' & _ & _ & _ & _ & _ & ->).
  cbn [sim delayed_states sim_plant].
  rewrite deque_append_maxlen. split; [exact M |].
  rewrite deque_append_full by (rewrite I, M; reflexivity).
  rewrite I. reflexivity.
Qed.

(** C3. For a delay of at least zero and a positive sample time, a run that
    gets through its set-up has a delay line of capacity
    [max(1, round(delay / sampletime))]; the capacity is never below 1, and
    for a zero delay it is exactly 1, so that throughout the run the line
    holds the single latest plant observation: the reading handed out at a
    tick is the one taken at the end of the tick before. *)
Theorem capacity_is_max_one_round (args : Args) (s : Simulation P C) :
  0 <= delay args -> 0 < sampletime args ->
  setup lib args = Ok s ->
  Z.of_nat (maxlen (delayed_states s)) =
    Z.max 1 (py_round (delay args / sampletime args)) /\
  (1 <= maxlen (delayed_states s))%nat /\
  (delay args == 0 ->
   maxlen (delayed_states s) = 1%nat /\
   forall fuel g st,
     run_loop fuel args (mkLoop s 0 g) = Done st ->
     maxlen (delayed_states (sim st)) = 1%nat /\
     items (delayed_states (sim st)) = [sensable_state (sim_plant (sim st))]).
Proof.
  intros Hd Hs E. pose proof (setup_maxlen _ _ E) as M.
  split; [rewrite M; lia |]. split; [rewrite M; lia |].
  intro Z0.
  assert (M1 : maxlen (delayed_states s) = 1%nat).
  { rewrite M.
    assert (Q0 : delay args / sampletime args == 0)
      by (rewrite Z0; unfold Qdiv; ring).
    rewrite (py_round_comp _ _ Q0). reflexivity. }
  split; [exact M1 |]. intros fuel g st R.
  apply (run_loop_invariant
           (fun st => maxlen (delayed_states (sim st)) = 1%nat /\
                      items (delayed_states (sim st)) =
                        [sensable_state (sim_plant (sim st))]) args)
    with (fuel := fuel) (st := mkLoop s 0 g); [| | exact R].
  - intros a b [Ma Ia] T. eapply single_slot_tick; eauto.
  - cbn [sim]. split; [exact M1 |].
    rewrite (setup_items _ _ E), M1. reflexivity.
Qed.

(** C4. When the set-up is through, the delay line holds exactly
    [capacity] copies of the plant's initial observable state, and its
    front, which is what [oldest()] reads, is that state. *)
Theorem delay_line_prefilled (args : Args) (s : Simulation P C) :
  setup lib args = Ok s ->
  items (delayed_states s) =
    repeat (sensable_state (sim_plant s)) (maxlen (delayed_states s)) /\
  length (items (delayed_states s)) = maxlen (delayed_states s) /\
  deque_front (delayed_states s) = Ok (sensable_state (sim_plant s)).
Proof.
  intro E. pose proof (setup_items _ _ E) as I.
  pose proof (setup_maxlen _ _ E) as M.
  split; [exact I |]. split; [rewrite I; apply repeat_length |].
  unfold deque_front. rewrite I.
  destruct (maxlen (delayed_states s)) as [| n] eqn:En; [lia | reflexivity].
Qed.

(** C9. An unknown plant name, or initial or constant values that do not
    evaluate to a dictionary, make the set-up raise: no [Simulation] is
    built, and the run raises the same error whatever the fuel, also with
    none at all, that is before the loop is entered. *)
Theorem bad_configuration_aborts (args : Args) :
  plant_getattr lib (plant args) = None \/
  (exists v, literal_eval lib (initial_values args) = Ok v /\ is_dict v = false) \/
  (exists v, literal_eval lib (constant_values args) = Ok v /\ is_dict v = false) ->
  exists e,
    setup lib args = Err e /\
    forall fuel (g : G), simulate_system lib fuel args g = Raised e.
Proof.
  intro Bad.
  assert (S : exists e, setup lib args = Err e).
  { unfold setup, py_div.
    destruct (Qeq_bool (sampletime args) 0); [simpl; eauto |]. simpl.
    destruct (plant_getattr lib (plant args)) as [cls |] eqn:Ep; [| simpl; eauto].
    simpl.
    destruct Bad as [B | [(v & Ev & Dv) | (v & Ev & Dv)]]; [discriminate | |].
    - rewrite Ev; simpl. rewrite Dv; simpl. eauto.
    - destruct (literal_eval lib (initial_values args)) as [ini |];
        simpl; eauto.
      destruct (is_dict ini); simpl; eauto.
      rewrite Ev; simpl. rewrite Dv; simpl. eauto. }
  destruct S as [e S]. exists e. split; [exact S |].
  intros fuel g. unfold simulate_system. rewrite S. reflexivity.
Qed.

End DelayLine.

(** ** How long the loop runs *)

Lemma clock_succ (args : Args) (n : nat) :
  clock args (S n) = clock args n + sampletime args.
Proof. reflexivity. Qed.

Section Run.

Context {P C G : Type} `{PlantAPI P} `{ControllerAPI C} `{RandomAPI G}.
Variable lib : Library P.

(** As [run_loop_invariant], with the loop test at hand in the step and
    its failure at the end. *)
Lemma run_loop_guarded_invariant (Inv : LoopState P C G -> Prop) (args : Args) :
  (forall st st',
     Inv st -> timestamp st < interval args * 60 ->
     tick args st = Ok st' -> Inv st') ->
  forall fuel st st',
    Inv st -> run_loop fuel args st = Done st' ->
    Inv st' /\ interval args * 60 <= timestamp st'.
Proof.
  intros Step. induction fuel as [| fuel IH]; intros st st' I E; simpl in E.
  - discriminate.
  - destruct (Qlt_bool (timestamp st) (interval args * 60)) eqn:B.
    + apply Qlt_bool_iff in B.
      destruct (tick args st) as [st1 |] eqn:Et; [| discriminate].
      eapply IH; [| exact E]. eapply Step; eauto.
    + apply Qlt_bool_false_iff in B. injection E as <-. auto.
Qed.

(** The clock, the lengths of the series and the loop tests passed, after
    any number of passes. *)
Lemma run_loop_passes (args : Args) (fuel : nat) (s : Simulation P C) (g : G)
  (st : LoopState P C G) :
  timestamps s = [] -> sensor_states s = [] -> outputs s = [] ->
  plant_states s = [] ->
  run_loop fuel args (mkLoop s 0 g) = Done st ->
  series_aligned (sim st) /\
  timestamp st = clock args (length (timestamps (sim st))) /\
  interval args * 60 <= timestamp st /\
  forall k, (k < length (timestamps (sim st)))%nat ->
            clock args k < interval args * 60.
Proof.
  intros T0 S0 O0 P0 R.
  destruct (run_loop_guarded_invariant
              (fun st =>
                 series_aligned (sim st) /\
                 timestamp st = clock args (length (timestamps (sim st))) /\
                 forall k, (k < length (timestamps (sim st)))%nat ->
                           clock args k < interval args * 60) args)
    with (fuel := fuel) (st := mkLoop s 0 g) (st' := st)
    as ((A & T & K) & B); auto.
  - intros a b (I1 & I2 & I3) Lt Et.
    pose proof (tick_series_aligned _ _ _ I1 Et) as I1'.
    apply tick_inv in Et.
    destruct Et as (noise & front & out & c & front' & _ & _ & _ & _ & _ & Es).
    split; [exact I1' |]. rewrite Es. cbn [sim timestamps timestamp].
    rewrite length_app, Nat.add_1_r, clock_succ, <- I2.
    split; [reflexivity |].
    intros k Hk.
    destruct (Nat.eq_dec k (length (timestamps (sim a)))) as [-> | Ne].
    + rewrite <- I2. exact Lt.
    + apply I3. lia.
  - cbn [sim timestamp]. unfold series_aligned. rewrite T0, S0, O0, P0.
    simpl. repeat split; auto. intros k Hk. lia.
Qed.

(** The loop is left as soon as the clock has reached the horizon. *)
Lemma run_loop_reaches (args : Args) (n : nat) :
  interval args * 60 <= clock args n ->
  forall (m k : nat) (st : LoopState P C G) (fuel : nat),
    line_full (sim st) -> timestamp st = clock args k ->
    (k + m = n)%nat -> (m < fuel)%nat ->
    exists st', run_loop fuel args st = Done st'.
Proof.
  intro Hn. induction m as [| m IH]; intros k st fuel F T K Hf;
    (destruct fuel as [| fuel]; [lia |]); simpl.
  - destruct (Qlt_bool (timestamp st) (interval args * 60)) eqn:B; [| eauto].
    apply Qlt_bool_iff in B. rewrite T in B.
    replace k with n in B by lia. lra.
  - destruct (Qlt_bool (timestamp st) (interval args * 60)) eqn:B; [| eauto].
    destruct (tick_total args st F) as [st1 Et]. rewrite Et.
    pose proof (tick_line_full _ _ _ F Et) as F1.
    apply tick_inv in Et.
    destruct Et as (noise & front & out & c & front' & _ & _ & _ & _ & _ & Es).
    apply (IH (S k)); [exact F1 | | lia | lia].
    rewrite Es. cbn [timestamp]. now rewrite T, clock_succ.
Qed.

(** C2, as the code has it. When the run of a configuration that the
    set-up accepts ends, the four series have one length [n], and [n] is
    the number of passes through [while timestamp < interval * 60]: the
    clock, started at 0 and advanced by [sampletime] in every pass, has
    reached the horizon after [n] additions and was below it after every
    smaller number of them. And the run ends, given fuel for it, as soon
    as the clock reaches the horizon after some number of additions. *)
Theorem series_length_is_first_tick_at_horizon
  (args : Args) (s : Simulation P C) (g : G) :
  setup lib args = Ok s ->
  (forall fuel st,
     simulate_system lib fuel args g = Done st ->
     let n := length (timestamps (sim st)) in
     length (sensor_states (sim st)) = n /\
     length (outputs (sim st)) = n /\
     length (plant_states (sim st)) = n /\
     timestamp st = clock args n /\
     interval args * 60 <= clock args n /\
     forall k, (k < n)%nat -> clock args k < interval args * 60) /\
  (forall n,
     interval args * 60 <= clock args n ->
     forall fuel, (n < fuel)%nat ->
     exists st, simulate_system lib fuel args g = Done st).
Proof.
  intro E. unfold simulate_system. rewrite E.
  destruct (setup_series_empty _ _ _ E) as (T0 & S0 & O0 & P0).
  split.
  - intros fuel st R. cbv zeta.
    destruct (run_loop_passes args fuel s g st T0 S0 O0 P0 R)
      as ((A1 & A2 & A3) & T & B & K).
    rewrite T in B. auto 7.
  - intros n Hn fuel Hf.
    apply (run_loop_reaches args n Hn n 0 (mkLoop s 0 g) fuel); auto.
    eapply setup_line_full; eauto.
Qed.

End Run.

(** ** What a tick records, and the noise term *)

Section Ticks.

Context {P C G : Type} `{PlantAPI P} `{ControllerAPI C} `{RandomAPI G}.
Variable lib : Library P.

Lemma quiet_noise (args : Args) (g : G) :
  sensor_noise_std_dev args <= 0 -> sensor_noise args g = Ok (0, g).
Proof.
  intro L. unfold sensor_noise.
  apply Qle_bool_iff in L. now rewrite L.
Qed.

Lemma quiet_tick_rng (args : Args) (st st' : LoopState P C G) :
  sensor_noise_std_dev args <= 0 -> tick args st = Ok st' -> rng st' = rng st.
Proof.
  intros L E. apply tick_inv in E.
  destruct E as (noise & front & out & c & front' & En & _).
  rewrite (quiet_noise args (rng st) L) in En. congruence.
Qed.

Lemma quiet_tick (args : Args) (st : LoopState P C G) (g : G) :
  sensor_noise_std_dev args <= 0 ->
  tick args (with_rng g st) =
  match tick args st with
  | Ok st' => Ok (with_rng g st')
  | Err e => Err e
  end.
Proof.
  intro L. unfold tick, read_sensor. cbn [with_rng sim timestamp rng].
  rewrite !(quiet_noise args _ L). simpl.
  destruct (deque_front (delayed_states (sim st))) as [front |]; simpl;
    [| reflexivity].
  destruct (if supress_output args then (0, controller (sim st))
            else calc (controller (sim st)) (timestamp st + sampletime args)
                   (front + 0) (setpoint args) (allowable_change args))
    as [out c].
  destruct (simulation_update _ _ _ _) as [s' |]; reflexivity.
Qed.

Lemma quiet_run_loop (args : Args) :
  sensor_noise_std_dev args <= 0 ->
  forall fuel (st : LoopState P C G) (g : G),
    run_loop fuel args (with_rng g st) =
    match run_loop fuel args st with
    | Done st' => Done (with_rng g st')
    | Raised e => Raised e
    | OutOfFuel => OutOfFuel
    end.
Proof.
  intro L. induction fuel as [| fuel IH]; intros st g; simpl; [reflexivity |].
  destruct (Qlt_bool (timestamp st) (interval args * 60)); [| reflexivity].
  rewrite (quiet_tick args st g L).
  destruct (tick args st) as [st1 |]; [apply IH | reflexivity].
Qed.

(** Once the delay line is filled, the loop does not raise. *)
Lemma run_loop_no_raise (args : Args) :
  forall fuel (st : LoopState P C G) e,
    line_full (sim st) -> run_loop fuel args st <> Raised e.
Proof.
  induction fuel as [| fuel IH]; intros st e F; simpl; [discriminate |].
  destruct (Qlt_bool (timestamp st) (interval args * 60)); [| discriminate].
  destruct (tick_total args st F) as [st1 Et]. rewrite Et.
  apply IH. eapply tick_line_full; eauto.
Qed.

(** C1, as the code has it. The value a tick appends to the sensor-state
    series is the front of the delay line read after the tick's new plant
    observation has been pushed, without noise: it is the value that, plus
    the next tick's noise, the controller is given on the next tick. *)
Theorem sensor_series_records_pushed_front
  (args : Args) (st st' : LoopState P C G) :
  tick args st = Ok st' ->
  exists front,
    deque_front (delayed_states (sim st')) = Ok front /\
    sensor_states (sim st') = sensor_states (sim st) ++ [front] /\
    forall noise g,
      sensor_noise args (rng st') = Ok (noise, g) ->
      read_sensor args (sim st') (rng st') = Ok (front + noise, g).
Proof.
  intro E. apply tick_inv in E.
  destruct E as (noise & front & out & c & front' & _ & _ & _ & _ & Ef & ->).
  exists front'. cbn [sim delayed_states sensor_states rng].
  split; [exact Ef |]. split; [reflexivity |].
  intros n g En. unfold read_sensor.
  cbn [delayed_states]. rewrite En; simpl. rewrite Ef. reflexivity.
Qed.

(** C7. With a noise deviation of zero the noise term is exactly 0 and the
    generator is left as it was, and two runs of one configuration, from any
    two generator states, end with the same four series. *)
Theorem zero_noise_runs_identical (args : Args) (fuel : nat) (g1 g2 : G) :
  sensor_noise_std_dev args == 0 ->
  (forall g, sensor_noise args g = Ok (0, g)) /\
  (forall st1,
     simulate_system lib fuel args g1 = Done st1 ->
     rng st1 = g1 /\
     exists st2,
       simulate_system lib fuel args g2 = Done st2 /\
       rng st2 = g2 /\
       timestamps (sim st2) = timestamps (sim st1) /\
       sensor_states (sim st2) = sensor_states (sim st1) /\
       outputs (sim st2) = outputs (sim st1) /\
       plant_states (sim st2) = plant_states (sim st1)).
Proof.
  intro Z0. assert (L : sensor_noise_std_dev args <= 0) by lra.
  split; [intro g; now apply quiet_noise |].
  unfold simulate_system. intros st1 R.
  destruct (setup lib args) as [s |]; [| discriminate].
  split.
  - apply (run_loop_invariant (fun st => rng st = g1) args)
      with (fuel := fuel) (st := mkLoop s 0 g1); [| reflexivity | exact R].
    intros a b I T. rewrite <- I. eapply quiet_tick_rng; eauto.
  - exists (with_rng g2 st1).
    change (mkLoop s 0 g2) with (with_rng g2 (mkLoop s 0 g1)).
    rewrite (quiet_run_loop args L), R. repeat split.
Qed.

(** C10. A noise deviation of zero or less, negative ones included, turns
    the noise off: the noise term is 0, the generator is not touched, by a
    tick or by the whole run, and nothing is raised in the loop, so that an
    error of the run can only be one of its set-up. *)
Theorem nonpositive_deviation_disables_noise (args : Args) :
  sensor_noise_std_dev args <= 0 ->
  (forall g, sensor_noise args g = Ok (0, g)) /\
  (forall st : LoopState P C G,
     line_full (sim st) -> exists st', tick args st = Ok st' /\ rng st' = rng st) /\
  (forall fuel g st, simulate_system lib fuel args g = Done st -> rng st = g) /\
  (forall fuel (g : G) e,
     simulate_system lib fuel args g = Raised e -> setup lib args = Err e).
Proof.
  intro L. split; [intro g; now apply quiet_noise |]. split; [| split].
  - intros st F. destruct (tick_total args st F) as [st' E].
    exists st'. split; [exact E |]. eapply quiet_tick_rng; eauto.
  - unfold simulate_system. intros fuel g st R.
    destruct (setup lib args) as [s |]; [| discriminate].
    apply (run_loop_invariant (fun st => rng st = g) args)
      with (fuel := fuel) (st := mkLoop s 0 g); [| reflexivity | exact R].
    intros a b I T. rewrite <- I. eapply quiet_tick_rng; eauto.
  - unfold simulate_system. intros fuel g e R.
    destruct (setup lib args) as [s |] eqn:E; [| congruence].
    exfalso. apply (run_loop_no_raise args fuel (mkLoop s 0 g) e); [| exact R].
    eapply setup_line_full; eauto.
Qed.

(** C8. With the suppress flag set, every pass through the loop commands
    an output of 0: it appends 0 to the outputs, leaves the controller as
    it was ([calc] is not called) and advances the plant by one sample time
    under a command of 0. Hence a run that ends after [n] passes, counted
    by the recorded time stamps and by the clock alike, has [n] outputs,
    all 0, the controller that the set-up built, and the initial plant
    advanced [n] times under a command of 0. *)
Theorem suppressed_output_is_zero (args : Args) (s : Simulation P C) :
  supress_output args = true ->
  setup lib args = Ok s ->
  (forall a b : LoopState P C G,
     tick args a = Ok b ->
     outputs (sim b) = outputs (sim a) ++ [0] /\
     controller (sim b) = controller (sim a) /\
     sim_plant (sim b) = update (sim_plant (sim a)) 0 (sampletime args) /\
     plant_states (sim b)
       = plant_states (sim a) ++ [sensable_state (sim_plant (sim b))] /\
     timestamps (sim b) = timestamps (sim a) ++ [timestamp b] /\
     timestamp b = timestamp a + sampletime args) /\
  (forall fuel (g : G) st,
     simulate_system lib fuel args g = Done st ->
     let n := length (timestamps (sim st)) in
     timestamp st = clock args n /\
     outputs (sim st) = repeat 0 n /\
     controller (sim st) = controller s /\
     sim_plant (sim st)
       = Nat.iter n (fun p => update p 0 (sampletime args)) (sim_plant s)).
Proof.
  intros Hs E.
  assert (Tick : forall a b : LoopState P C G,
             tick args a = Ok b ->
             outputs (sim b) = outputs (sim a) ++ [0] /\
             controller (sim b) = controller (sim a) /\
             sim_plant (sim b) = update (sim_plant (sim a)) 0 (sampletime args) /\
             plant_states (sim b)
               = plant_states (sim a) ++ [sensable_state (sim_plant (sim b))] /\
             timestamps (sim b) = timestamps (sim a) ++ [timestamp b] /\
             timestamp b = timestamp a + sampletime args).
  { intros a b T. apply tick_inv in T.
    destruct T as (noise & front & out & c & front' & _ & _ & _ & Ec & _ & Eb).
    rewrite Hs in Ec. injection Ec as <- <-.
    rewrite Eb. cbn [sim outputs controller sim_plant plant_states timestamps
                     timestamp].
    repeat split. }
  split; [exact Tick |].
  intros fuel g st R. cbv zeta. unfold simulate_system in R. rewrite E in R.
  destruct (setup_series_empty _ _ _ E) as (T0 & S0 & O0 & P0).
  apply (run_loop_invariant
           (fun st =>
              timestamp st = clock args (length (timestamps (sim st))) /\
              outputs (sim st) = repeat 0 (length (timestamps (sim st))) /\
              controller (sim st) = controller s /\
              sim_plant (sim st) =
                Nat.iter (length (timestamps (sim st)))
                  (fun p => update p 0 (sampletime args)) (sim_plant s)) args)
    with (fuel := fuel) (st := mkLoop s 0 g); [| | exact R].
  - intros a b (I1 & I2 & I3 & I4) T.
    destruct (Tick a b T) as (K1 & K2 & K3 & _ & K5 & K6).
    rewrite K1, K2, K3, K5, K6, length_app, Nat.add_1_r, clock_succ.
    rewrite <- I1, I2, I3, I4, repeat_snoc. simpl. auto.
  - cbn [sim timestamp]. rewrite O0, T0. simpl. auto.
Qed.

End Ticks.

(** ** The PID controller in the loop *)

Lemma clamp_between (a b x : Q) : a <= b -> a <= PID.clamp a b x <= b.
Proof.
  intro L. unfold PID.clamp.
  destruct (Q.max_spec a (Qmin b x)) as [[I E] | [I E]];
    destruct (Q.min_spec b x) as [[J F] | [J F]];
    rewrite E; try rewrite F; rewrite ?F in I; lra.
Qed.

(** A change clamped to [+- m] stays between 0 and the change asked for. *)
Lemma clamp_toward (m d : Q) :
  0 <= m ->
  - m <= PID.clamp (- m) m d <= m /\
  (0 <= d -> 0 <= PID.clamp (- m) m d <= d) /\
  (d <= 0 -> d <= PID.clamp (- m) m d <= 0).
Proof.
  intro L. unfold PID.clamp.
  destruct (Q.max_spec (- m) (Qmin m d)) as [[I E] | [I E]];
    destruct (Q.min_spec m d) as [[J F] | [J F]];
    rewrite E; try rewrite F; rewrite ?F in I; repeat split; intros; lra.
Qed.

Lemma Qabs_le_of_between (x m : Q) : - m <= x <= m -> Qabs x <= m.
Proof. intro B. apply Qabs_Qle_condition. exact B. Qed.

(** One call of [calc]: the bounds stay, the output is remembered, it is
    within the allowance of the previous one, and within the bounds if the
    previous one was. *)
Lemma calc_inv (c c' : PID.state) (now x sp m o : Q) :
  PID.calc c now x sp m = (o, c') ->
  PID.lo c' = PID.lo c /\ PID.hi c' = PID.hi c /\ PID.last_output c' = o /\
  (0 <= m -> Qabs (o - PID.last_output c) <= m) /\
  (0 <= m -> PID.lo c <= PID.last_output c <= PID.hi c ->
   PID.lo c <= o <= PID.hi c).
Proof.
  unfold PID.calc. intro E.
  destruct (Qlt_bool (now - PID.last_time c) (PID.sample_time c)).
  - injection E as <- <-. repeat split; try lra.
    intro L. apply Qabs_le_of_between. lra.
  - injection E as <- <-. cbn [PID.lo PID.hi PID.last_output].
    set (raw := PID.kp c * (sp - x) + _ + _).
    set (target := PID.clamp (PID.lo c) (PID.hi c) raw).
    repeat split; try reflexivity.
    + intro L.
      destruct (clamp_toward m (target - PID.last_output c) L) as (B & _ & _).
      apply Qabs_le_of_between. lra.
    + pose proof (clamp_between (PID.lo c) (PID.hi c) raw) as T.
      fold target in T.
      destruct (clamp_toward m (target - PID.last_output c)) as (_ & U & D);
        [assumption |].
      destruct (Qlt_le_dec (target - PID.last_output c) 0) as [N | N];
        [assert (N' : target - PID.last_output c <= 0) by lra;
         specialize (D N') | specialize (U N)]; lra.
    + pose proof (clamp_between (PID.lo c) (PID.hi c) raw) as T.
      fold target in T.
      destruct (clamp_toward m (target - PID.last_output c)) as (_ & U & D);
        [assumption |].
      destruct (Qlt_le_dec (target - PID.last_output c) 0) as [N | N];
        [assert (N' : target - PID.last_output c <= 0) by lra;
         specialize (D N') | specialize (U N)]; lra.
Qed.

Lemma final_snoc (l : list Q) (x : Q) : final (l ++ [x]) = Some x.
Proof.
  unfold final. rewrite length_app, Nat.add_1_r. simpl.
  rewrite nth_error_app2, Nat.sub_diag by lia. reflexivity.
Qed.

Lemma slew_bounded_snoc (m : Q) (l : list Q) (x : Q) :
  slew_bounded m l ->
  (forall a, final l = Some a -> Qabs (x - a) <= m) ->
  slew_bounded m (l ++ [x]).
Proof.
  intros Hl Hx t a b Ha Hb.
  destruct (Nat.lt_ge_cases (S t) (length l)) as [L | L].
  - rewrite nth_error_app1 in Ha, Hb by lia. eauto.
  - assert (B : (S t < length (l ++ [x]))%nat)
      by (apply nth_error_Some; congruence).
    rewrite length_app in B; simpl in B.
    assert (T : S t = length l) by lia.
    rewrite nth_error_app2 in Hb by lia.
    rewrite T, Nat.sub_diag in Hb. injection Hb as <-.
    rewrite nth_error_app1 in Ha by lia.
    apply Hx. unfold final. rewrite <- T. exact Ha.
Qed.

Section PIDLoop.

Context {P G : Type} `{PlantAPI P} `{RandomAPI G}.
Variable lib : Library P.

Lemma setup_controller (args : Args) (s : Simulation P PID.state) :
  setup lib args = Ok s ->
  PID.lo (controller s) = out_min args /\
  PID.hi (controller s) = out_max args /\
  PID.last_output (controller s) = 0 /\
  outputs s = [].
Proof.
  intro E. apply setup_Ok in E.
  destruct E as (cls & ini & con & c & p & _ & _ & _ & _ & _ & _ & Ec & _ & ->).
  cbn [controller outputs]. cbn [PIDArduino PID_controller] in Ec.
  unfold PID.new in Ec.
  destruct (Qle_bool (sampletime args) 0); [discriminate |].
  destruct (Qlt_bool (out_max args) (out_min args)); [discriminate |].
  injection Ec as <-. simpl. auto.
Qed.

(** What the constructor has checked and set when the set-up is through. *)
Lemma setup_controller_start (args : Args) (s : Simulation P PID.state) :
  setup lib args = Ok s ->
  0 < sampletime args /\ out_min args <= out_max args /\
  PID.sample_time (controller s) = sampletime args /\
  PID.last_time (controller s) = 0.
Proof.
  intro E. apply setup_Ok in E.
  destruct E as (cls & ini & con & c & p & _ & _ & _ & _ & _ & _ & Ec & _ & ->).
  cbn [controller]. cbn [PIDArduino PID_controller] in Ec.
  unfold PID.new in Ec.
  destruct (Qle_bool (sampletime args) 0) eqn:A; [discriminate |].
  destruct (Qlt_bool (out_max args) (out_min args)) eqn:B; [discriminate |].
  injection Ec as <-. simpl.
  apply Qlt_bool_false_iff in B.
  assert (A' : Qlt_bool 0 (sampletime args) = true)
    by (unfold Qlt_bool; now rewrite A).
  apply Qlt_bool_iff in A'. auto.
Qed.

(** The states that ticks lead to keep what every tick keeps. *)
Lemma reachable_invariant {C : Type} `{ControllerAPI C}
  (Inv : LoopState P C G -> Prop) (args : Args) (s : Simulation P C) :
  (forall g, Inv (mkLoop s 0 g)) ->
  (forall a b, Inv a -> tick args a = Ok b -> Inv b) ->
  forall st, reachable args s st -> Inv st.
Proof.
  intros Start Step st R. induction R as [g | a b _ IH T]; eauto.
Qed.

(** The state in which the loop is left is one of them. *)
Lemma run_loop_reachable {C : Type} `{ControllerAPI C}
  (args : Args) (s : Simulation P C) (fuel : nat) (g : G) (st : LoopState P C G) :
  run_loop fuel args (mkLoop s 0 g) = Done st -> reachable args s st.
Proof.
  intro R.
  apply (run_loop_invariant (reachable args s) args)
    with (fuel := fuel) (st := mkLoop s 0 g); [| constructor | exact R].
  intros a b Ra T. eapply reach_tick; eauto.
Qed.

(** A change that is clamped to the allowance brings a previous output that
    is within the allowance of the bounds to a target within the bounds, or
    as far towards it as to be within them. *)
Lemma rate_limited_within (lo hi target prev m : Q) :
  lo <= target <= hi -> 0 <= m -> lo - m <= prev <= hi + m ->
  lo <= prev + PID.clamp (- m) m (target - prev) <= hi.
Proof.
  intros T M Pv. unfold PID.clamp.
  destruct (Q.max_spec (- m) (Qmin m (target - prev))) as [[I E] | [I E]];
    destruct (Q.min_spec m (target - prev)) as [[J F] | [J F]];
    rewrite E; try rewrite F; rewrite ?F in I; lra.
Qed.

(** A call of [calc] that is not held back by the sample-time gate. *)
Lemma calc_reaches_bounds (c c' : PID.state) (now x sp m o : Q) :
  PID.calc c now x sp m = (o, c') ->
  PID.sample_time c <= now - PID.last_time c ->
  PID.lo c <= PID.hi c -> 0 <= m ->
  PID.lo c - m <= PID.last_output c <= PID.hi c + m ->
  PID.lo c <= o <= PID.hi c /\
  PID.last_output c' = o /\ PID.last_time c' = now /\
  PID.lo c' = PID.lo c /\ PID.hi c' = PID.hi c /\
  PID.sample_time c' = PID.sample_time c.
Proof.
  unfold PID.calc. intros E Gate B M Pv.
  apply Qlt_bool_false_iff in Gate. rewrite Gate in E.
  injection E as <- <-. cbn [PID.lo PID.hi PID.last_output PID.last_time
                              PID.sample_time].
  set (raw := PID.kp c * (sp - x) + _ + _).
  split; [| repeat split; reflexivity].
  apply rate_limited_within; auto.
  apply clamp_between. exact B.
Qed.

(** Without the allowance the bounds are missed: a new controller whose
    lower bound lies further above 0 than one call may move the output
    returns the allowance itself on its first call. *)
Lemma first_output_misses_bounds (st kp ki kd lo hi m now x sp : Q)
  (c : PID.state) :
  PID.new st kp ki kd lo hi = Ok c ->
  0 <= m -> m < lo -> st <= now ->
  fst (PID.calc c now x sp m) == m /\ fst (PID.calc c now x sp m) < lo.
Proof.
  unfold PID.new. intros E M L N.
  destruct (Qle_bool st 0); [discriminate |].
  destruct (Qlt_bool hi lo) eqn:B; [discriminate |].
  apply Qlt_bool_false_iff in B. injection E as <-.
  unfold PID.calc. cbn [PID.last_time PID.sample_time].
  assert (Gate : Qlt_bool (now - 0) st = false)
    by (apply Qlt_bool_false_iff; lra).
  rewrite Gate. cbn [fst PID.lo PID.hi PID.last_output PID.kp PID.ki PID.kd
                     PID.integral PID.last_input PID.sample_time].
  set (raw := kp * (sp - x) + _ + _).
  pose proof (clamp_between lo hi raw B) as T.
  set (target := PID.clamp lo hi raw) in *.
  assert (V : 0 + PID.clamp (- m) m (target - 0) == m).
  { unfold PID.clamp.
    destruct (Q.max_spec (- m) (Qmin m (target - 0))) as [[I E] | [I E]];
      destruct (Q.min_spec m (target - 0)) as [[J F] | [J F]];
      rewrite E; try rewrite F; rewrite ?F in I; lra. }
  split; [exact V | rewrite V; exact L].
Qed.



End PIDLoop.

(** ** The statements on concrete runs *)

Ltac by_computation :=
  first [ reflexivity | unfold Qle, Qlt; simpl; lia | vm_compute; lia ].

(** A negative scale is what numpy refuses; the loop never asks for one. *)
Example negative_scale_refused :
  np_random_normal (- (1 # 2)) 0%nat = Err ValueError.
Proof. reflexivity. Qed.

(** The value recorded at a tick is not the one the controller was given
    at that tick: on the first tick of this run the probe is given 2, the
    initial plant state, and 27, the plant state after the tick, is
    recorded. *)
Lemma recorded_sensor_value_differs :
  exists st fed g recorded,
    setup (C := Probe) test_library args0 = Ok sim_probe /\
    read_sensor args0 sim_probe 0%nat = Ok (fed, g) /\
    tick args0 (mkLoop sim_probe 0 0%nat) = Ok st /\
    seen (controller (sim st)) = fed /\
    sensor_states (sim st) = [recorded] /\
    ~ recorded == fed.
Proof.
  exists loop_probe, 2, 0%nat, 27.
  split; [vm_compute; reflexivity |].
  split; [vm_compute; reflexivity |].
  split; [vm_compute; reflexivity |].
  split; [vm_compute; reflexivity |].
  split; [vm_compute; reflexivity |].
  intro X. vm_compute in X. discriminate X.
Qed.

Lemma sensor_series_records_pushed_front_witness :
  tick args0 (mkLoop sim0 0 0%nat) = Ok loop1 /\
  exists front,
    deque_front (delayed_states (sim loop1)) = Ok front /\
    sensor_states (sim loop1) = [front].
Proof.
  assert (T : tick args0 (mkLoop sim0 0 0%nat) = Ok loop1) by (vm_compute; reflexivity).
  split; [exact T |].
  destruct (sensor_series_records_pushed_front args0 (mkLoop sim0 0 0%nat) loop1
              T) as (front & F & S & _).
  exists front. split; [exact F | exact S].
Defined.

(** One minute at a sample time of 25 seconds: three ticks, at 25, 50 and
    75 seconds, where [round(60 / 25)] is 2. *)
Lemma series_length_is_not_round :
  exists st,
    simulate_system (C := PID.state) test_library 10 args0 0%nat = Done st /\
    length (timestamps (sim st)) = 3%nat /\
    length (sensor_states (sim st)) = 3%nat /\
    py_round (interval args0 * 60 / sampletime args0) = 2%Z /\
    Z.of_nat (length (timestamps (sim st))) <>
      py_round (interval args0 * 60 / sampletime args0).
Proof.
  exists run0. repeat split; try (vm_compute; reflexivity).
  intro X. vm_compute in X. discriminate X.
Qed.

Lemma series_length_is_first_tick_at_horizon_witness :
  setup (C := PID.state) test_library args0 = Ok sim0 /\
  simulate_system (C := PID.state) test_library 10 args0 0%nat = Done run0 /\
  length (outputs (sim run0)) = 3%nat /\
  timestamp run0 = clock args0 3 /\
  clock args0 2 < interval args0 * 60 /\
  interval args0 * 60 <= clock args0 3 /\
  exists st,
    simulate_system (C := PID.state) test_library 4 args0 0%nat = Done st.
Proof.
  assert (E : setup (C := PID.state) test_library args0 = Ok sim0)
    by (vm_compute; reflexivity).
  assert (R : simulate_system (C := PID.state) test_library 10 args0 0%nat
              = Done run0) by (vm_compute; reflexivity).
  destruct (series_length_is_first_tick_at_horizon test_library args0 sim0
              0%nat E) as (Ended & Ends).
  destruct (Ended 10%nat run0 R) as (_ & L & _ & T & B & K).
  split; [exact E |]. split; [exact R |]. split; [exact L |].
  split; [exact T |]. split; [apply (K 2%nat); simpl; lia |].
  split; [exact B |].
  apply (Ends 3%nat B 4%nat). lia.
Defined.

Lemma capacity_is_max_one_round_witness :
  0 <= delay args0 /\ 0 < sampletime args0 /\
  setup (C := PID.state) test_library args0 = Ok sim0 /\
  Z.of_nat (maxlen (delayed_states sim0)) = 1%Z /\
  items (delayed_states (sim run0)) = [sensable_state (sim_plant (sim run0))].
Proof.
  assert (Hd : 0 <= delay args0) by by_computation.
  assert (Hs : 0 < sampletime args0) by by_computation.
  assert (E : setup (C := PID.state) test_library args0 = Ok sim0)
    by (vm_compute; reflexivity).
  assert (R : run_loop 10 args0 (mkLoop sim0 0 0%nat) = Done run0)
    by (vm_compute; reflexivity).
  destruct (capacity_is_max_one_round (G := nat) test_library args0 sim0
              Hd Hs E) as (M & _ & Z0).
  destruct (Z0 (Qeq_refl 0)) as (_ & K).
  split; [exact Hd |]. split; [exact Hs |]. split; [exact E |].
  split; [exact M |].
  exact (proj2 (K 10%nat 0%nat run0 R)).
Defined.

Lemma delay_line_prefilled_witness :
  setup (C := PID.state) test_library args_narrow = Ok sim_narrow /\
  items (delayed_states sim_narrow) = [2; 2] /\
  deque_front (delayed_states sim_narrow) = Ok 2.
Proof.
  assert (E : setup (C := PID.state) test_library args_narrow = Ok sim_narrow)
    by (vm_compute; reflexivity).
  split; [exact E |].
  destruct (delay_line_prefilled test_library args_narrow sim_narrow E)
    as (I & _ & F).
  split; [exact I | exact F].
Defined.




Lemma zero_noise_runs_identical_witness :
  sensor_noise_std_dev args0 == 0 /\
  exists st2,
    simulate_system (C := PID.state) test_library 10 args0 5%nat = Done st2 /\
    rng st2 = 5%nat /\
    sensor_states (sim st2) = sensor_states (sim run0) /\
    outputs (sim st2) = outputs (sim run0).
Proof.
  assert (R0 : simulate_system (C := PID.state) test_library 10 args0 0%nat
               = Done run0) by (vm_compute; reflexivity).
  split; [reflexivity |].
  destruct (zero_noise_runs_identical (C := PID.state) test_library args0 10
              0%nat 5%nat (Qeq_refl 0)) as (_ & K).
  destruct (K run0 R0) as (_ & st2 & R & G2 & _ & S2 & O2 & _).
  exists st2. repeat split; assumption.
Defined.

Lemma suppressed_output_is_zero_witness :
  supress_output args_open = true /\
  setup (C := Probe) test_library args_open = Ok sim_probe /\
  simulate_system (C := Probe) test_library 10 args_open 0%nat = Done run_open /\
  timestamp run_open = clock args_open 3 /\
  outputs (sim run_open) = [0; 0; 0] /\
  calls (controller (sim run_open)) = 0%nat /\
  sim_plant (sim run_open)
    = update (update (update (sim_plant sim_probe) 0 25) 0 25) 0 25.
Proof.
  assert (E : setup (C := Probe) test_library args_open = Ok sim_probe)
    by (vm_compute; reflexivity).
  assert (R : simulate_system (C := Probe) test_library 10 args_open 0%nat
              = Done run_open) by (vm_compute; reflexivity).
  destruct (suppressed_output_is_zero test_library args_open sim_probe
              eq_refl E) as (_ & Run).
  destruct (Run 10%nat 0%nat run_open R) as (T & O & K & Pl).
  split; [reflexivity |]. split; [exact E |]. split; [exact R |].
  split; [exact T |]. split; [exact O |].
  split; [rewrite K; reflexivity | exact Pl].
Defined.

Lemma bad_configuration_aborts_witness :
  plant_getattr test_library (plant args_unknown) = None /\
  exists e,
    setup (C := PID.state) test_library args_unknown = Err e /\
    forall fuel (g : nat),
      simulate_system (C := PID.state) test_library fuel args_unknown g = Raised e.
Proof.
  split; [reflexivity |].
  exact (bad_configuration_aborts (C := PID.state) (G := nat) test_library
           args_unknown (or_introl eq_refl)).
Defined.

Lemma nonpositive_deviation_disables_noise_witness :
  sensor_noise_std_dev args_negative <= 0 /\
  (forall g : nat, sensor_noise args_negative g = Ok (0, g)) /\
  (forall fuel (g : nat) e,
     simulate_system (C := PID.state) test_library fuel args_negative g = Raised e ->
     setup (C := PID.state) test_library args_negative = Err e).
Proof.
  assert (H1 : sensor_noise_std_dev args_negative <= 0) by by_computation.
  split; [exact H1 |].
  destruct (nonpositive_deviation_disables_noise (C := PID.state) (G := nat)
              test_library args_negative H1) as (N & _ & _ & R).
  split; [exact N | exact R].
Defined.

(** * Further properties of the loop *)

Lemma nth_error_snoc {A} (l : list A) (x y : A) (k : nat) :
  nth_error (l ++ [x]) k = Some y ->
  (k < length l)%nat /\ nth_error l k = Some y \/ k = length l /\ y = x.
Proof.
  intro E.
  destruct (Nat.lt_ge_cases k (length l)) as [L | L].
  - left. rewrite nth_error_app1 in E by exact L. auto.
  - right.
    assert (B : (k < length (l ++ [x]))%nat)
      by (apply nth_error_Some; congruence).
    rewrite length_app in B; simpl in B.
    assert (K : k = length l) by lia.
    rewrite nth_error_app2, K, Nat.sub_diag in E by lia.
    injection E as <-. auto.
Qed.

Section Clock.

Context {P C G : Type} `{PlantAPI P} `{ControllerAPI C} `{RandomAPI G}.
Variable lib : Library P.

(** X1. The recorded time stamps are the values the loop's clock takes:
    the entry at index [k] is the clock after [k + 1] additions of the
    sample time to 0, a running sum, and the clock ends at the last of
    them. *)
Theorem timestamps_are_the_running_clock
  (args : Args) (fuel : nat) (g : G) (st : LoopState P C G) :
  simulate_system lib fuel args g = Done st ->
  timestamp st = clock args (length (timestamps (sim st))) /\
  forall k t,
    nth_error (timestamps (sim st)) k = Some t -> t = clock args (S k).
Proof.
  unfold simulate_system. intro R.
  destruct (setup lib args) as [s |] eqn:E; [| discriminate].
  destruct (setup_series_empty _ _ _ E) as (T0 & _).
  apply (run_loop_invariant
           (fun st =>
              timestamp st = clock args (length (timestamps (sim st))) /\
              forall k t,
                nth_error (timestamps (sim st)) k = Some t ->
                t = clock args (S k)) args)
    with (fuel := fuel) (st := mkLoop s 0 g); [| | exact R].
  - intros a b (I1 & I2) T. apply tick_inv in T.
    destruct T as (noise & front & out & c & front' & _ & _ & _ & _ & _ & ->).
    cbn [sim timestamps timestamp]. split.
    + rewrite length_app, Nat.add_1_r, clock_succ, I1. reflexivity.
    + intros k t E'. apply nth_error_snoc in E'.
      destruct E' as [[_ E'] | [-> ->]]; [now apply I2 |].
      rewrite clock_succ, I1. reflexivity.
  - cbn [sim timestamp]. rewrite T0. split; [reflexivity |].
    intros k t E'. destruct k; discriminate.
Qed.

(** X4. A horizon of zero or less: the loop body is not entered, and the
    run ends in the state of the set-up, with four empty series, for any
    sample time that the set-up accepts. *)
Theorem nonpositive_horizon_runs_no_tick
  (args : Args) (s : Simulation P C) (g : G) (fuel : nat) :
  interval args <= 0 ->
  setup lib args = Ok s ->
  simulate_system lib (S fuel) args g = Done (mkLoop s 0 g) /\
  timestamps s = [] /\ sensor_states s = [] /\
  outputs s = [] /\ plant_states s = [].
Proof.
  intros Hi E. split; [| eapply setup_series_empty; eauto].
  unfold simulate_system. rewrite E. simpl.
  assert (B : Qlt_bool 0 (interval args * 60) = false)
    by (apply Qlt_bool_false_iff; lra).
  now rewrite B.
Qed.

(** X5. The order of the set-up's errors: a sample time of zero raises
    [ZeroDivisionError] whatever the plant name and the values are; after
    that an unknown plant name raises [AssertionError] whatever the values
    are; after that initial values that are no dictionary raise
    [AssertionError] before the controller or the plant is built. *)
Theorem setup_error_order (args : Args) :
  (sampletime args == 0 ->
   forall fuel (g : G),
     simulate_system lib fuel args g = Raised ZeroDivisionError) /\
  (~ sampletime args == 0 ->
   plant_getattr lib (plant args) = None ->
   forall fuel (g : G),
     simulate_system lib fuel args g = Raised AssertionError) /\
  (~ sampletime args == 0 ->
   plant_getattr lib (plant args) <> None ->
   forall v, literal_eval lib (initial_values args) = Ok v ->
   is_dict v = false ->
   forall fuel (g : G),
     simulate_system lib fuel args g = Raised AssertionError).
Proof.
  unfold simulate_system, setup, py_div. repeat split.
  - intros Z0 fuel g. apply Qeq_bool_iff in Z0. now rewrite Z0.
  - intros N0 Pl fuel g.
    destruct (Qeq_bool (sampletime args) 0) eqn:B;
      [apply Qeq_bool_iff in B; contradiction |].
    simpl. now rewrite Pl.
  - intros N0 Pl v Ev Dv fuel g.
    destruct (Qeq_bool (sampletime args) 0) eqn:B;
      [apply Qeq_bool_iff in B; contradiction |].
    simpl. destruct (plant_getattr lib (plant args)); [| contradiction].
    simpl. rewrite Ev. simpl. now rewrite Dv.
Qed.

End Clock.

(** ** The delay line and the recorded series *)

Lemma tl_skipn {A} (n : nat) : forall l : list A, tl (skipn n l) = skipn (S n) l.
Proof.
  induction n as [| n IH]; intros [| a l]; simpl; auto.
Qed.

Lemma hd_skipn {A} (n : nat) : forall (l : list A) (x : A) (r : list A),
  skipn n l = x :: r -> nth_error l n = Some x.
Proof.
  induction n as [| n IH]; intros [| a l] x r E; simpl in *;
    try discriminate.
  - now injection E as -> _.
  - eapply IH; eauto.
Qed.

Lemma firstn_succ_nth {A} (n : nat) : forall (l : list A) (x : A),
  nth_error l n = Some x -> firstn (S n) l = firstn n l ++ [x].
Proof.
  induction n as [| n IH]; intros [| a l] x E; simpl in *; try discriminate.
  - now injection E as ->.
  - f_equal. now apply IH.
Qed.

Lemma skipn_snoc {A} (n : nat) (l : list A) (x : A) :
  (n <= length l)%nat -> skipn n (l ++ [x]) = skipn n l ++ [x].
Proof.
  intro L. rewrite skipn_app.
  replace (n - length l)%nat with 0%nat by lia. reflexivity.
Qed.

Lemma firstn_snoc {A} (n : nat) (l : list A) (x : A) :
  (n <= length l)%nat -> firstn n (l ++ [x]) = firstn n l.
Proof.
  intro L. rewrite firstn_app.
  replace (n - length l)%nat with 0%nat by lia. simpl. apply app_nil_r.
Qed.

Lemma trajectory_snoc {P} `{PlantAPI P} (dt : Q) (us : list Q) (u : Q) :
  forall p : P,
    trajectory dt p (us ++ [u]) =
    trajectory dt p us ++ [update (fold_left (fun q v => update q v dt) us p) u dt].
Proof.
  induction us as [| v us IH]; intro p; simpl; [reflexivity |].
  now rewrite IH.
Qed.

Section Series.

Context {P C G : Type} `{PlantAPI P} `{ControllerAPI C} `{RandomAPI G}.
Variable lib : Library P.

(** What the delay line and the sensor series hold after any number of
    ticks, in terms of the plant series; [x0] is the observation the line
    was filled with and [n] its capacity. *)
Lemma run_loop_delay_line (args : Args) (x0 : Q) (n : nat) (fuel : nat)
  (s : Simulation P C) (g : G) (st : LoopState P C G) :
  (1 <= n)%nat ->
  maxlen (delayed_states s) = n -> items (delayed_states s) = repeat x0 n ->
  plant_states s = [] -> sensor_states s = [] ->
  run_loop fuel args (mkLoop s 0 g) = Done st ->
  items (delayed_states (sim st))
    = skipn (length (plant_states (sim st)))
        (repeat x0 n ++ plant_states (sim st)) /\
  sensor_states (sim st)
    = firstn (length (plant_states (sim st)))
        (repeat x0 (n - 1) ++ plant_states (sim st)).
Proof.
  intros N1 M0 I0 P0 S0 R.
  apply (run_loop_invariant
           (fun st =>
              maxlen (delayed_states (sim st)) = n /\
              items (delayed_states (sim st))
                = skipn (length (plant_states (sim st)))
                    (repeat x0 n ++ plant_states (sim st)) /\
              sensor_states (sim st)
                = firstn (length (plant_states (sim st)))
                    (repeat x0 (n - 1) ++ plant_states (sim st))) args)
    with (fuel := fuel) (st := mkLoop s 0 g) in R; [tauto | |].
  - intros a b (I1 & I2 & I3) T. apply tick_inv in T.
    destruct T as (noise & front & out & c & front' & _ & _ & _ & _ & Ef & ->).
    cbn [sim delayed_states plant_states sensor_states] in *.
    set (v := sensable_state (update (sim_plant (sim a)) out (sampletime args))) in *.
    set (ps := plant_states (sim a)) in *.
    assert (Len : length (items (delayed_states (sim a)))
                  = maxlen (delayed_states (sim a))).
    { rewrite I1, I2, length_skipn, length_app, repeat_length. lia. }
    assert (Items : items (deque_append (delayed_states (sim a)) v)
                    = skipn (length (ps ++ [v])) (repeat x0 n ++ ps ++ [v])).
    { rewrite deque_append_full by exact Len.
      rewrite I2, <- skipn_snoc
        by (rewrite length_app, repeat_length; lia).
      rewrite tl_skipn, <- app_assoc, length_app, Nat.add_1_r. reflexivity. }
    split; [now rewrite deque_append_maxlen |]. split; [exact Items |].
    unfold deque_front in Ef. rewrite Items in Ef.
    destruct (skipn (length (ps ++ [v])) (repeat x0 n ++ ps ++ [v]))
      as [| y r] eqn:Sk; [discriminate |].
    injection Ef as ->. apply hd_skipn in Sk.
    rewrite length_app, Nat.add_1_r in Sk |- *.
    destruct n as [| m]; [lia |].
    replace (S m - 1)%nat with m in * by lia. simpl in Sk.
    rewrite (firstn_succ_nth _ _ _ Sk), I3, app_assoc.
    rewrite firstn_snoc by (rewrite length_app, repeat_length; lia).
    reflexivity.
  - cbn [sim]. rewrite M0, I0, P0, S0. simpl.
    rewrite app_nil_r. auto.
Qed.

(** X6. The recorded sensor series is the plant series delayed by one tick
    less than the capacity of the delay line: it is the plant series with
    [capacity - 1] copies of the initial observation put in front, cut to
    the number of ticks; with a capacity of 1 the two series are equal. *)
Theorem sensor_series_is_delayed_plant_series
  (args : Args) (s : Simulation P C) (fuel : nat) (g : G) (st : LoopState P C G) :
  setup lib args = Ok s ->
  simulate_system lib fuel args g = Done st ->
  sensor_states (sim st)
    = firstn (length (plant_states (sim st)))
        (repeat (sensable_state (sim_plant s)) (maxlen (delayed_states s) - 1)
           ++ plant_states (sim st)) /\
  (maxlen (delayed_states s) = 1%nat ->
   sensor_states (sim st) = plant_states (sim st)).
Proof.
  intros E R. unfold simulate_system in R. rewrite E in R.
  destruct (setup_line_full _ _ _ E) as (_ & M1).
  destruct (setup_series_empty _ _ _ E) as (_ & S0 & _ & P0).
  destruct (run_loop_delay_line args (sensable_state (sim_plant s))
              (maxlen (delayed_states s)) fuel s g st M1 eq_refl
              (setup_items _ _ _ E) P0 S0 R) as (_ & K).
  split; [exact K |].
  intro One. rewrite K, One. simpl. apply firstn_all.
Qed.

(** X7. The delay line holds the latest [capacity] plant observations, with
    the initial observation standing in for the ones not made yet. Hence
    the reading that the next tick gives the controller, noise apart, is
    the initial observation during the first [capacity] ticks and the plant
    observation recorded [capacity] ticks earlier from then on. *)
Theorem delay_line_holds_latest_observations
  (args : Args) (s : Simulation P C) (fuel : nat) (g : G) (st : LoopState P C G) :
  setup lib args = Ok s ->
  simulate_system lib fuel args g = Done st ->
  let x0 := sensable_state (sim_plant s) in
  let n := maxlen (delayed_states s) in
  let ps := plant_states (sim st) in
  items (delayed_states (sim st)) = skipn (length ps) (repeat x0 n ++ ps) /\
  ((length ps < n)%nat -> deque_front (delayed_states (sim st)) = Ok x0) /\
  ((n <= length ps)%nat ->
   exists y, nth_error ps (length ps - n) = Some y /\
             deque_front (delayed_states (sim st)) = Ok y).
Proof.
  intros E R x0 n ps. unfold simulate_system in R. rewrite E in R.
  destruct (setup_line_full _ _ _ E) as (_ & M1).
  destruct (setup_series_empty _ _ _ E) as (_ & S0 & _ & P0).
  destruct (run_loop_delay_line args x0 n fuel s g st M1 eq_refl
              (setup_items _ _ _ E) P0 S0 R) as (K & _).
  fold ps in K. split; [exact K |].
  assert (Front : forall y,
             nth_error (repeat x0 n ++ ps) (length ps) = Some y ->
             deque_front (delayed_states (sim st)) = Ok y).
  { intros y Ny. unfold deque_front. rewrite K.
    destruct (skipn (length ps) (repeat x0 n ++ ps)) as [| z r] eqn:Sk.
    - apply (f_equal (@length Q)) in Sk.
      rewrite length_skipn, length_app, repeat_length in Sk. simpl in Sk.
      fold n in M1. lia.
    - apply hd_skipn in Sk. congruence. }
  split.
  - intro L. apply Front.
    rewrite nth_error_app1 by (rewrite repeat_length; exact L).
    apply nth_error_repeat. exact L.
  - intro L.
    destruct (nth_error ps (length ps - n)) as [y |] eqn:Ny.
    + exists y. split; [reflexivity |]. apply Front.
      rewrite nth_error_app2 by (rewrite repeat_length; exact L).
      rewrite repeat_length. exact Ny.
    + apply nth_error_None in Ny. fold n in M1. lia.
Qed.

(** X8. The recorded outputs are a full record of the actuation: the plant
    at the end is the initial plant advanced by each recorded output in
    turn, each held for one sample time, and the plant series lists the
    observable states along that way. *)
Theorem outputs_replay_the_plant
  (args : Args) (s : Simulation P C) (fuel : nat) (g : G) (st : LoopState P C G) :
  setup lib args = Ok s ->
  simulate_system lib fuel args g = Done st ->
  sim_plant (sim st)
    = fold_left (fun p u => update p u (sampletime args))
        (outputs (sim st)) (sim_plant s) /\
  plant_states (sim st)
    = map sensable_state
        (trajectory (sampletime args) (sim_plant s) (outputs (sim st))).
Proof.
  intros E R. unfold simulate_system in R. rewrite E in R.
  destruct (setup_series_empty _ _ _ E) as (_ & _ & O0 & P0).
  apply (run_loop_invariant
           (fun st =>
              sim_plant (sim st)
                = fold_left (fun p u => update p u (sampletime args))
                    (outputs (sim st)) (sim_plant s) /\
              plant_states (sim st)
                = map sensable_state
                    (trajectory (sampletime args) (sim_plant s)
                       (outputs (sim st)))) args)
    with (fuel := fuel) (st := mkLoop s 0 g); [| | exact R].
  - intros a b (I1 & I2) T. apply tick_inv in T.
    destruct T as (noise & front & out & c & front' & _ & _ & _ & _ & _ & ->).
    cbn [sim sim_plant outputs plant_states].
    rewrite fold_left_app, trajectory_snoc, map_app, <- I1, <- I2.
    simpl. auto.
  - cbn [sim]. rewrite O0, P0. simpl. auto.
Qed.

Lemma loud_noise (args : Args) (g : G) :
  0 < sensor_noise_std_dev args ->
  sensor_noise args g = Ok (normal (sensor_noise_std_dev args) g).
Proof.
  intro L. unfold sensor_noise, np_random_normal.
  destruct (Qle_bool (sensor_noise_std_dev args) 0) eqn:A.
  - apply Qle_bool_iff in A. lra.
  - destruct (Qlt_bool (sensor_noise_std_dev args) 0) eqn:B;
      [apply Qlt_bool_iff in B; lra | reflexivity].
Qed.

(** X9. With a positive noise deviation the generator is drawn from once
    per tick, with that deviation for a scale: at the end it is in the
    state that as many draws as there are recorded ticks lead to. *)
Theorem generator_drawn_once_per_tick
  (args : Args) (fuel : nat) (g : G) (st : LoopState P C G) :
  0 < sensor_noise_std_dev args ->
  simulate_system lib fuel args g = Done st ->
  rng st = Nat.iter (length (timestamps (sim st)))
             (fun r => snd (normal (sensor_noise_std_dev args) r)) g.
Proof.
  intros L R. unfold simulate_system in R.
  destruct (setup lib args) as [s |] eqn:E; [| discriminate].
  destruct (setup_series_empty _ _ _ E) as (T0 & _).
  apply (run_loop_invariant
           (fun st =>
              rng st = Nat.iter (length (timestamps (sim st)))
                         (fun r => snd (normal (sensor_noise_std_dev args) r)) g)
           args)
    with (fuel := fuel) (st := mkLoop s 0 g); [| | exact R].
  - intros a b I T. apply tick_inv in T.
    destruct T as (noise & front & out & c & front' & En & _ & _ & _ & _ & Eb).
    rewrite (loud_noise args (rng a) L) in En. injection En as En.
    assert (Ts : length (timestamps (sim b)) = S (length (timestamps (sim a))))
      by (rewrite Eb; cbn [sim timestamps]; rewrite length_app; simpl; lia).
    rewrite Ts. simpl. rewrite <- I, En. reflexivity.
  - cbn [sim rng]. now rewrite T0.
Qed.

Lemma suppressed_tick (args : Args) (sigma : Q) (a a' b : LoopState P C G) :
  supress_output args = true ->
  sim b = sim a -> timestamp b = timestamp a ->
  tick args a = Ok a' ->
  exists b',
    tick (set_noise sigma args) b = Ok b' /\
    sim b' = sim a' /\ timestamp b' = timestamp a'.
Proof.
  intros Hs Es Et T. apply tick_inv in T.
  destruct T as (noise & front & out & c & front' & _ & Ef & _ & Ec & Ef' & ->).
  rewrite Hs in Ec. injection Ec as <- <-.
  destruct (sensor_noise_Ok (set_noise sigma args) (rng b)) as (n' & g' & En).
  unfold tick, read_sensor. rewrite En, Es, Et. simpl. rewrite Ef. simpl.
  rewrite Hs. unfold simulation_update. simpl.
  simpl in Ef'. rewrite Ef'. simpl. eauto.
Qed.

(** X10. With the suppress flag set the noise reaches nothing that is
    recorded: a run with any other noise deviation and any other generator
    state ends with the same simulation record, series, plant and all. *)
Theorem suppressed_run_ignores_noise
  (args : Args) (sigma : Q) (fuel : nat) (g g' : G) (st : LoopState P C G) :
  supress_output args = true ->
  simulate_system lib fuel args g = Done st ->
  exists st',
    simulate_system lib fuel (set_noise sigma args) g' = Done st' /\
    sim st' = sim st /\ timestamp st' = timestamp st.
Proof.
  intros Hs R. unfold simulate_system in *.
  change (setup lib (set_noise sigma args)) with (setup lib args).
  destruct (setup lib args) as [s |]; [| discriminate].
  assert (K : forall fuel (a b : LoopState P C G),
             sim b = sim a -> timestamp b = timestamp a ->
             run_loop fuel args a = Done st ->
             exists st',
               run_loop fuel (set_noise sigma args) b = Done st' /\
               sim st' = sim st /\ timestamp st' = timestamp st).
  { clear fuel R. induction fuel as [| fuel IH]; intros a b Es Et Ra;
      simpl in *; [discriminate |].
    rewrite Et.
    destruct (Qlt_bool (timestamp a) (interval args * 60)).
    - destruct (tick args a) as [a1 |] eqn:Ta; [| discriminate].
      destruct (suppressed_tick args sigma a a1 b Hs Es Et Ta)
        as (b1 & Tb & Es1 & Et1).
      rewrite Tb. eapply IH; eauto.
    - injection Ra as <-. eauto. }
  apply (K fuel (mkLoop s 0 g) (mkLoop s 0 g')); auto.
Qed.

End Series.

(** * Properties of [point_simulation.py] *)

Lemma fold_min_le (r : list Q) : forall x,
  fold_left Qmin r x <= x /\ forall y, In y r -> fold_left Qmin r x <= y.
Proof.
  induction r as [| a r IH]; intro x; simpl.
  - split; [lra | tauto].
  - destruct (IH (Qmin x a)) as (I1 & I2).
    pose proof (Q.le_min_l x a). pose proof (Q.le_min_r x a).
    split; [lra |]. intros y [<- | Iy]; [lra | auto].
Qed.

Lemma fold_max_ge (r : list Q) : forall x,
  x <= fold_left Qmax r x /\ forall y, In y r -> y <= fold_left Qmax r x.
Proof.
  induction r as [| a r IH]; intro x; simpl.
  - split; [lra | tauto].
  - destruct (IH (Qmax x a)) as (I1 & I2).
    pose proof (Q.le_max_l x a). pose proof (Q.le_max_r x a).
    split; [lra |]. intros y [<- | Iy]; [lra | auto].
Qed.

Lemma axis_limits_Ok (col : list Q) (lo hi : Q) :
  FallingPoint.axis_limits col = Ok (lo, hi) ->
  lo <= - (1) /\ 1 <= hi /\ forall v, In v col -> lo <= v <= hi.
Proof.
  unfold FallingPoint.axis_limits. destruct col as [| x r]; simpl;
    [discriminate |].
  intro E. injection E as <- <-.
  destruct (fold_min_le r x) as (A1 & A2).
  destruct (fold_max_ge r x) as (B1 & B2).
  pose proof (Q.le_min_l (fold_left Qmin r x) (- (1))).
  pose proof (Q.le_min_r (fold_left Qmin r x) (- (1))).
  pose proof (Q.le_max_l (fold_left Qmax r x) 1).
  pose proof (Q.le_max_r (fold_left Qmax r x) 1).
  repeat split; try lra;
    destruct H3 as [<- | Iv]; try lra;
    try (specialize (A2 _ Iv); lra); specialize (B2 _ Iv); lra.
Qed.

Lemma axis_limits_Err (col : list Q) (e : exn) :
  FallingPoint.axis_limits col = Err e -> col = [] /\ e = ValueError.
Proof.
  unfold FallingPoint.axis_limits. destruct col; simpl; [| discriminate].
  intros [= <-]. auto.
Qed.

(** What a successful call went through. *)
Lemma animate_point_Ok (t_span : list Q) (xyz : list (Q * Q * Q)) (scale : Q)
  (a : FallingPoint.Animation) :
  FallingPoint.animate_point t_span xyz scale = Ok a ->
  (1 # 100 < scale /\ scale < 100) /\
  FallingPoint.axis_limits (map (fun r => fst (fst r)) xyz)
    = Ok (FallingPoint.xlim a) /\
  FallingPoint.axis_limits (map (fun r => snd (fst r)) xyz)
    = Ok (FallingPoint.ylim a) /\
  FallingPoint.axis_limits (map snd xyz) = Ok (FallingPoint.zlim a) /\
  option_map (fun m => m / scale) (np_average (np_diff t_span))
    = Some (FallingPoint.dt a) /\
  FallingPoint.frames a = np_arange 1 (length xyz) /\
  FallingPoint.interval_ms a = py_int (FallingPoint.dt a * 1000).
Proof.
  unfold FallingPoint.animate_point. intro E.
  destruct (Qlt_bool (1 # 100) scale && Qlt_bool scale 100) eqn:B;
    [| discriminate].
  apply andb_true_iff in B. destruct B as (B1 & B2).
  apply Qlt_bool_iff in B1. apply Qlt_bool_iff in B2. simpl in E.
  destruct (FallingPoint.axis_limits (map (fun r => fst (fst r)) xyz))
    as [xl |]; [| discriminate]. simpl in E.
  destruct (FallingPoint.axis_limits (map (fun r => snd (fst r)) xyz))
    as [yl |]; [| discriminate]. simpl in E.
  destruct (FallingPoint.axis_limits (map snd xyz)) as [zl |];
    [| discriminate]. simpl in E.
  destruct (np_average (np_diff t_span)) as [m |]; [| discriminate].
  simpl in E. injection E as <-. simpl.
  repeat split; auto.
Qed.

(** X11. [animate_point] refuses a scale outside the open interval from
    0.01 to 100, the two ends included in the refusal, with an
    [AssertionError], and raises that error for no other reason. *)
Theorem animate_point_scale_guard
  (t_span : list Q) (xyz : list (Q * Q * Q)) (scale : Q) :
  FallingPoint.animate_point t_span xyz scale = Err AssertionError <->
  ~ (1 # 100 < scale /\ scale < 100).
Proof.
  unfold FallingPoint.animate_point.
  destruct (Qlt_bool (1 # 100) scale && Qlt_bool scale 100) eqn:B.
  - apply andb_true_iff in B. destruct B as (B1 & B2).
    apply Qlt_bool_iff in B1. apply Qlt_bool_iff in B2. simpl.
    split; [| tauto]. intro E. exfalso.
    destruct (FallingPoint.axis_limits (map (fun r => fst (fst r)) xyz))
      as [xl | e] eqn:Ex;
      [| apply axis_limits_Err in Ex; destruct Ex as (_ & ->); discriminate].
    simpl in E.
    destruct (FallingPoint.axis_limits (map (fun r => snd (fst r)) xyz))
      as [yl | e] eqn:Ey;
      [| apply axis_limits_Err in Ey; destruct Ey as (_ & ->); discriminate].
    simpl in E.
    destruct (FallingPoint.axis_limits (map snd xyz)) as [zl | e] eqn:Ez;
      [| apply axis_limits_Err in Ez; destruct Ez as (_ & ->); discriminate].
    simpl in E.
    destruct (option_map _ _); discriminate.
  - simpl. split; [intros _ | reflexivity].
    intros (B1 & B2).
    apply Qlt_bool_iff in B1. apply Qlt_bool_iff in B2.
    rewrite B1, B2 in B. discriminate.
Qed.

Lemma axis_limits_cons (x : Q) (r : list Q) :
  exists l, FallingPoint.axis_limits (x :: r) = Ok l.
Proof. unfold FallingPoint.axis_limits. simpl. eauto. Qed.

(** X12. With a scale that is let through, [animate_point] needs at least
    one row to show and at least two time points: without them it raises
    [ValueError], with them it returns. *)
Theorem animate_point_needs_rows_and_two_times
  (t_span : list Q) (xyz : list (Q * Q * Q)) (scale : Q) :
  1 # 100 < scale -> scale < 100 ->
  (xyz = [] \/ (length t_span < 2)%nat ->
   FallingPoint.animate_point t_span xyz scale = Err ValueError) /\
  (xyz <> [] -> (2 <= length t_span)%nat ->
   exists a, FallingPoint.animate_point t_span xyz scale = Ok a).
Proof.
  intros B1 B2. unfold FallingPoint.animate_point.
  apply Qlt_bool_iff in B1. apply Qlt_bool_iff in B2.
  rewrite B1, B2. simpl.
  destruct xyz as [| row rows].
  - split; [reflexivity | congruence].
  - cbn [map].
    destruct (axis_limits_cons (fst (fst row)) (map (fun r => fst (fst r)) rows))
      as (xl & ->).
    destruct (axis_limits_cons (snd (fst row)) (map (fun r => snd (fst r)) rows))
      as (yl & ->).
    destruct (axis_limits_cons (snd row) (map snd rows)) as (zl & ->).
    simpl. split.
    + intros [X | L]; [discriminate |].
      destruct t_span as [| t0 [| t1 r]]; simpl in L; try lia; reflexivity.
    + intros _ L.
      destruct t_span as [| t0 [| t1 r]]; simpl in L; try lia.
      simpl. eauto.
Qed.

(** X13. The axis limits that [animate_point] sets enclose the cube from -1
    to 1 and every point that is shown. *)
Theorem axis_limits_enclose_the_points
  (t_span : list Q) (xyz : list (Q * Q * Q)) (scale : Q)
  (a : FallingPoint.Animation) :
  FallingPoint.animate_point t_span xyz scale = Ok a ->
  (fst (FallingPoint.xlim a) <= - (1) /\ 1 <= snd (FallingPoint.xlim a)) /\
  (fst (FallingPoint.ylim a) <= - (1) /\ 1 <= snd (FallingPoint.ylim a)) /\
  (fst (FallingPoint.zlim a) <= - (1) /\ 1 <= snd (FallingPoint.zlim a)) /\
  forall x y z,
    In (x, y, z) xyz ->
    fst (FallingPoint.xlim a) <= x <= snd (FallingPoint.xlim a) /\
    fst (FallingPoint.ylim a) <= y <= snd (FallingPoint.ylim a) /\
    fst (FallingPoint.zlim a) <= z <= snd (FallingPoint.zlim a).
Proof.
  intro E. apply animate_point_Ok in E.
  destruct E as (_ & Ex & Ey & Ez & _).
  destruct (FallingPoint.xlim a) as [xlo xhi].
  destruct (FallingPoint.ylim a) as [ylo yhi].
  destruct (FallingPoint.zlim a) as [zlo zhi].
  apply axis_limits_Ok in Ex. apply axis_limits_Ok in Ey.
  apply axis_limits_Ok in Ez.
  destruct Ex as (X1 & X2 & X3). destruct Ey as (Y1 & Y2 & Y3).
  destruct Ez as (Z1 & Z2 & Z3). simpl.
  repeat split; auto.
  - apply (X3 x). apply (in_map (fun r => fst (fst r)) xyz (x, y, z)).
    assumption.
  - apply (X3 x). apply (in_map (fun r => fst (fst r)) xyz (x, y, z)).
    assumption.
  - apply (Y3 y). apply (in_map (fun r => snd (fst r)) xyz (x, y, z)).
    assumption.
  - apply (Y3 y). apply (in_map (fun r => snd (fst r)) xyz (x, y, z)).
    assumption.
  - apply (Z3 z). apply (in_map snd xyz (x, y, z)). assumption.
  - apply (Z3 z). apply (in_map snd xyz (x, y, z)). assumption.
Qed.

(** X15. The frames handed to the animation are the row numbers from 1 to
    the last: row 0 is never shown, and every frame finds its row, which is
    shown with the time [i * dt]. *)
Theorem frames_are_the_rows_after_the_first
  (t_span : list Q) (xyz : list (Q * Q * Q)) (scale : Q)
  (a : FallingPoint.Animation) :
  FallingPoint.animate_point t_span xyz scale = Ok a ->
  (forall i, In i (FallingPoint.frames a) <-> (1 <= i < length xyz)%nat) /\
  length (FallingPoint.frames a) = (length xyz - 1)%nat /\
  forall i,
    In i (FallingPoint.frames a) ->
    exists row,
      nth_error xyz i = Some row /\
      FallingPoint.animate xyz (FallingPoint.dt a) i
        = Ok (row, inject_Z (Z.of_nat i) * FallingPoint.dt a).
Proof.
  intro E. apply animate_point_Ok in E.
  destruct E as (_ & _ & _ & _ & _ & Ef & _).
  rewrite Ef. unfold np_arange.
  assert (I : forall i, In i (seq 1 (length xyz - 1))
                        <-> (1 <= i < length xyz)%nat)
    by (intro i; rewrite in_seq; lia).
  split; [exact I |]. split; [apply length_seq |].
  intros i Hi. apply I in Hi. unfold FallingPoint.animate.
  destruct (nth_error xyz i) as [row |] eqn:N; [eauto |].
  apply nth_error_None in N. lia.
Qed.

(** X16. [falling_point_ode] returns three numbers more than the state has
    beyond its first three: the derivative has the length of the state
    exactly when the state has three numbers or more, and it always ends in
    the acceleration [(0, 0, -G)]. *)
Theorem falling_point_ode_shape (Z : list Q) (t : Q) :
  length (FallingPoint.falling_point_ode Z t) = (length Z - 3 + 3)%nat /\
  (length (FallingPoint.falling_point_ode Z t) = length Z
   <-> (3 <= length Z)%nat) /\
  skipn (length Z - 3) (FallingPoint.falling_point_ode Z t)
    = [0; 0; - FallingPoint.G].
Proof.
  unfold FallingPoint.falling_point_ode.
  assert (L : length (skipn 3 Z ++ [0; 0; - FallingPoint.G])
              = (length Z - 3 + 3)%nat)
    by (rewrite length_app, length_skipn; reflexivity).
  split; [exact L |]. split; [rewrite L; lia |].
  rewrite skipn_app, length_skipn, Nat.sub_diag.
  rewrite skipn_all2 by (rewrite length_skipn; lia). reflexivity.
Qed.

(** X17. The field of [falling_point_ode] keeps the mechanical energy of
    the point: along the derivative the energy's rate of change is zero,
    and a straight step of length [h] along it changes the energy by
    [h * h * MASS * G * G / 2] only. *)
Theorem falling_point_ode_keeps_energy (x y z vx vy vz t h : Q) :
  let s := [x; y; z; vx; vy; vz] in
  let d := FallingPoint.falling_point_ode s t in
  FallingPoint.energy_rate s d == 0 /\
  FallingPoint.energy (FallingPoint.step_along s d h)
    == FallingPoint.energy s
       + h * FallingPoint.energy_rate s d
       + h * h * (FallingPoint.MASS * FallingPoint.G * FallingPoint.G / 2).
Proof.
  simpl. unfold FallingPoint.MASS, FallingPoint.G. split; field.
Qed.

(** ** The further properties on concrete runs *)

Lemma timestamps_are_the_running_clock_witness :
  simulate_system (C := PID.state) test_library 10 args0 0%nat = Done run0 /\
  timestamp run0 = clock args0 3 /\
  nth_error (timestamps (sim run0)) 1 = Some (clock args0 2).
Proof.
  assert (R : simulate_system (C := PID.state) test_library 10 args0 0%nat
              = Done run0) by (vm_compute; reflexivity).
  assert (N : nth_error (timestamps (sim run0)) 1 = Some 50)
    by (vm_compute; reflexivity).
  split; [exact R |].
  destruct (timestamps_are_the_running_clock test_library args0 10 0%nat run0 R)
    as (T & K).
  split; [exact T |].
  rewrite N. exact (f_equal Some (K 1%nat 50 N)).
Defined.

Lemma nonpositive_horizon_runs_no_tick_witness :
  interval args_no_horizon <= 0 /\
  setup (C := PID.state) test_library args_no_horizon = Ok sim0 /\
  simulate_system (C := PID.state) test_library 1 args_no_horizon 0%nat
    = Done (mkLoop sim0 0 0%nat).
Proof.
  assert (Hi : interval args_no_horizon <= 0) by by_computation.
  assert (E : setup (C := PID.state) test_library args_no_horizon = Ok sim0)
    by (vm_compute; reflexivity).
  split; [exact Hi |]. split; [exact E |].
  exact (proj1 (nonpositive_horizon_runs_no_tick test_library args_no_horizon
                  sim0 0%nat 0%nat Hi E)).
Defined.

Lemma setup_error_order_witness :
  sampletime args_zero_sampletime == 0 /\
  plant_getattr test_library (plant args_zero_sampletime) = None /\
  simulate_system (C := PID.state) test_library 10 args_zero_sampletime 0%nat
    = Raised ZeroDivisionError /\
  ~ sampletime args_unknown == 0 /\
  simulate_system (C := PID.state) test_library 10 args_unknown 0%nat
    = Raised AssertionError.
Proof.
  assert (Z0 : sampletime args_zero_sampletime == 0) by reflexivity.
  assert (N0 : ~ sampletime args_unknown == 0)
    by (intro X; vm_compute in X; discriminate X).
  split; [exact Z0 |]. split; [reflexivity |].
  split.
  - exact (proj1 (setup_error_order (C := PID.state) (G := nat) test_library
                    args_zero_sampletime) Z0 10%nat 0%nat).
  - split; [exact N0 |].
    exact (proj1 (proj2 (setup_error_order (C := PID.state) (G := nat)
                           test_library args_unknown))
             N0 eq_refl 10%nat 0%nat).
Defined.

Lemma sensor_series_is_delayed_plant_series_witness :
  setup (C := PID.state) test_library args_narrow = Ok sim_narrow /\
  simulate_system (C := PID.state) test_library 10 args_narrow 0%nat
    = Done run_narrow /\
  sensor_states (sim run_narrow)
    = firstn 2 (2 :: plant_states (sim run_narrow)).
Proof.
  assert (E : setup (C := PID.state) test_library args_narrow = Ok sim_narrow)
    by (vm_compute; reflexivity).
  assert (R : simulate_system (C := PID.state) test_library 10 args_narrow 0%nat
              = Done run_narrow) by (vm_compute; reflexivity).
  split; [exact E |]. split; [exact R |].
  exact (proj1 (sensor_series_is_delayed_plant_series test_library args_narrow
                  sim_narrow 10 0%nat run_narrow E R)).
Defined.

Lemma delay_line_holds_latest_observations_witness :
  setup (C := PID.state) test_library args_narrow = Ok sim_narrow /\
  simulate_system (C := PID.state) test_library 10 args_narrow 0%nat
    = Done run_narrow /\
  items (delayed_states (sim run_narrow)) = plant_states (sim run_narrow) /\
  exists y,
    nth_error (plant_states (sim run_narrow)) 0 = Some y /\
    deque_front (delayed_states (sim run_narrow)) = Ok y.
Proof.
  assert (E : setup (C := PID.state) test_library args_narrow = Ok sim_narrow)
    by (vm_compute; reflexivity).
  assert (R : simulate_system (C := PID.state) test_library 10 args_narrow 0%nat
              = Done run_narrow) by (vm_compute; reflexivity).
  split; [exact E |]. split; [exact R |].
  destruct (delay_line_holds_latest_observations test_library args_narrow
              sim_narrow 10 0%nat run_narrow E R) as (I & _ & K).
  split; [exact I |].
  apply K. vm_compute. lia.
Defined.

Lemma outputs_replay_the_plant_witness :
  setup (C := PID.state) test_library args0 = Ok sim0 /\
  simulate_system (C := PID.state) test_library 10 args0 0%nat = Done run0 /\
  plant_states (sim run0)
    = map sensable_state
        (trajectory (sampletime args0) (sim_plant sim0) (outputs (sim run0))).
Proof.
  assert (E : setup (C := PID.state) test_library args0 = Ok sim0)
    by (vm_compute; reflexivity).
  assert (R : simulate_system (C := PID.state) test_library 10 args0 0%nat
              = Done run0) by (vm_compute; reflexivity).
  split; [exact E |]. split; [exact R |].
  exact (proj2 (outputs_replay_the_plant test_library args0 sim0 10 0%nat
                  run0 E R)).
Defined.

Lemma generator_drawn_once_per_tick_witness :
  0 < sensor_noise_std_dev args_noisy /\
  simulate_system (C := PID.state) test_library 10 args_noisy 0%nat
    = Done run_noisy /\
  rng run_noisy = 3%nat.
Proof.
  assert (L : 0 < sensor_noise_std_dev args_noisy) by by_computation.
  assert (R : simulate_system (C := PID.state) test_library 10 args_noisy 0%nat
              = Done run_noisy) by (vm_compute; reflexivity).
  split; [exact L |]. split; [exact R |].
  exact (generator_drawn_once_per_tick test_library args_noisy 10 0%nat
           run_noisy L R).
Defined.

Lemma suppressed_run_ignores_noise_witness :
  supress_output args_open = true /\
  simulate_system (C := Probe) test_library 10 args_open 0%nat = Done run_open /\
  exists st',
    simulate_system (C := Probe) test_library 10 (set_noise (1 # 2) args_open)
      7%nat = Done st' /\
    sim st' = sim run_open.
Proof.
  assert (R : simulate_system (C := Probe) test_library 10 args_open 0%nat
              = Done run_open) by (vm_compute; reflexivity).
  split; [reflexivity |]. split; [exact R |].
  destruct (suppressed_run_ignores_noise test_library args_open (1 # 2) 10
              0%nat 7%nat run_open eq_refl R) as (st' & R' & S' & _).
  exists st'. split; [exact R' | exact S'].
Defined.

Lemma animate_point_needs_rows_and_two_times_witness :
  1 # 100 < 1 /\ 1 < 100 /\
  FallingPoint.animate_point [0] FallingPoint.xyz4 1 = Err ValueError /\
  exists a,
    FallingPoint.animate_point FallingPoint.t_span4 FallingPoint.xyz4 1 = Ok a.
Proof.
  assert (B1 : 1 # 100 < 1) by by_computation.
  assert (B2 : 1 < 100) by by_computation.
  split; [exact B1 |]. split; [exact B2 |]. split.
  - apply (proj1 (animate_point_needs_rows_and_two_times [0] FallingPoint.xyz4
                    1 B1 B2)).
    right. simpl. lia.
  - apply (proj2 (animate_point_needs_rows_and_two_times FallingPoint.t_span4
                    FallingPoint.xyz4 1 B1 B2)).
    + discriminate.
    + simpl. lia.
Defined.

Lemma axis_limits_enclose_the_points_witness :
  FallingPoint.animate_point FallingPoint.t_span4 FallingPoint.xyz4 1
    = Ok FallingPoint.animation4 /\
  fst (FallingPoint.zlim FallingPoint.animation4) <= - (3) /\
  5 # 2 <= snd (FallingPoint.zlim FallingPoint.animation4).
Proof.
  assert (E : FallingPoint.animate_point FallingPoint.t_span4 FallingPoint.xyz4 1
              = Ok FallingPoint.animation4) by (vm_compute; reflexivity).
  split; [exact E |].
  destruct (axis_limits_enclose_the_points _ _ _ _ E) as (_ & _ & _ & K).
  split.
  - apply (K 1 0 (- (3))). simpl. auto.
  - apply (K 1 (3 # 2) (5 # 2)). simpl. auto.
Defined.

Lemma frames_are_the_rows_after_the_first_witness :
  FallingPoint.animate_point FallingPoint.t_span4 FallingPoint.xyz4 1
    = Ok FallingPoint.animation4 /\
  length (FallingPoint.frames FallingPoint.animation4) = 3%nat /\
  ~ In 0%nat (FallingPoint.frames FallingPoint.animation4).
Proof.
  assert (E : FallingPoint.animate_point FallingPoint.t_span4 FallingPoint.xyz4 1
              = Ok FallingPoint.animation4) by (vm_compute; reflexivity).
  split; [exact E |].
  destruct (frames_are_the_rows_after_the_first _ _ _ _ E) as (I & L & _).
  split; [exact L |].
  intro X. apply I in X. lia.
Defined.
